(** * Range and pivot-table compiler of the Sheets tools

    A shallow embedding of the helpers of the Sheets tool module
    ([columnLetterToIndex], [resolveColumnIndex], [parseA1Range],
    [getSheetIdByName], [buildGroupRule], [buildPivotGroup],
    [buildPivotValue], [buildPivotFilters]), of the
    [sheets_create_pivot_table] handler and of the pivot schemas of
    [schemas/sheets.ts], followed by the properties of the specification.

    Conventions of the embedding.
    - A JavaScript string is a [string], a sequence of code units, each an
      [ascii].  Splitting, the patterns and [parseInt] treat every code
      unit that is not an ASCII letter, digit or separator alike, so they
      are modelled on all of [ascii]; [toUpperCase] and [toLowerCase] are
      modelled on the code units below 128, where they change the letters
      only, and nothing is claimed about them above.
    - Integer-valued JavaScript numbers (indices, row numbers, sheet
      identifiers) are [Z]; the embedding is exact while the values stay
      below 2^53, which [exact_letters] and [exact_digits] ensure for the
      column indices and the row numbers.  Numbers that are only carried through (histogram bounds,
      manual group items, condition operands) belong to an abstract type
      [number] with its conversion to a string, [numberToString].
    - An optional property ([undefined] or [null]) is an [option].
    - A function whose body can [throw] returns an [Outcome]; calls to the
      spreadsheet service run in the monad [M], which threads the log of
      the calls made so far. *)

From Stdlib Require Import ZArith List String Ascii Bool Lia.
From Stdlib Require Import DecimalString.
Import ListNotations.

Open Scope string_scope.
Open Scope Z_scope.

(** ** JavaScript strings *)

Module Js.

Definition charCode (c : ascii) : Z := Z.of_N (N_of_ascii c).

Definition in_range (lo hi : Z) (c : ascii) : bool :=
  (lo <=? charCode c) && (charCode c <=? hi).

Definition is_upper (c : ascii) : bool := in_range 65 90 c.
Definition is_lower (c : ascii) : bool := in_range 97 122 c.

(** The class [[A-Z]] under the [i] flag. *)
Definition is_letter (c : ascii) : bool := is_upper c || is_lower c.

(** The class [\d]. *)
Definition is_digit (c : ascii) : bool := in_range 48 57 c.

Definition upper_char (c : ascii) : ascii :=
  if is_lower c then ascii_of_N (Z.to_N (charCode c - 32)) else c.

Definition lower_char (c : ascii) : ascii :=
  if is_upper c then ascii_of_N (Z.to_N (charCode c + 32)) else c.

Fixpoint map_string (f : ascii -> ascii) (s : string) : string :=
  match s with
  | EmptyString => EmptyString
  | String c rest => String (f c) (map_string f rest)
  end.

Definition toUpperCase : string -> string := map_string upper_char.
Definition toLowerCase : string -> string := map_string lower_char.

Fixpoint forall_string (p : ascii -> bool) (s : string) : bool :=
  match s with
  | EmptyString => true
  | String c rest => p c && forall_string p rest
  end.

(** Truthiness of a string: only the empty string is falsy. *)
Definition truthy (s : string) : bool :=
  match s with
  | EmptyString => false
  | String _ _ => true
  end.

(** [s.includes(c)] for a one-character needle. *)
Fixpoint includes (s : string) (sep : ascii) : bool :=
  match s with
  | EmptyString => false
  | String c rest => Ascii.eqb c sep || includes rest sep
  end.

(** [s.split(c)] for a one-character separator: the pieces between the
    occurrences of [c]; never the empty array. *)
Fixpoint split (sep : ascii) (s : string) : list string :=
  match s with
  | EmptyString => [EmptyString]
  | String c rest =>
      if Ascii.eqb c sep then EmptyString :: split sep rest
      else
        match split sep rest with
        | [] => [String c EmptyString]
        | piece :: pieces => String c piece :: pieces
        end
  end.

(** Removal of one final [q]. *)
Fixpoint strip_last (q : ascii) (s : string) : string :=
  match s with
  | EmptyString => EmptyString
  | String c EmptyString => if Ascii.eqb c q then EmptyString else s
  | String c rest => String c (strip_last q rest)
  end.

(** The replacement of the sheet name's quotes (a quote at the start or
    a quote at the end, global flag, by the empty string): the first match
    removes a quote at index 0, the next one a quote at the end of what
    follows it. *)
Definition strip_quotes (s : string) : string :=
  let q := "'"%char in
  match s with
  | String c rest => if Ascii.eqb c q then strip_last q rest else strip_last q s
  | EmptyString => EmptyString
  end.

(** The longest prefix of [s] whose characters satisfy [p], and the rest. *)
Fixpoint span (p : ascii -> bool) (s : string) : string * string :=
  match s with
  | EmptyString => (EmptyString, EmptyString)
  | String c rest =>
      if p c then let (pre, post) := span p rest in (String c pre, post)
      else (EmptyString, s)
  end.

(** Matching a cell reference against the pattern of [parseA1Range]
    (anchored, case-insensitive: one or more letters in the first group,
    then any number of digits in the second): the two groups, or [None]
    for [null].  Both quantifiers are greedy and the two classes are disjoint, so the
    match, when there is one, is the one found by scanning once. *)
Definition match_ref (s : string) : option (string * string) :=
  let (letters, rest) := span is_letter s in
  let (digits, tail) := span is_digit rest in
  if truthy letters && negb (truthy tail) then Some (letters, digits) else None.

(** [parseInt(s, 10)] on a string of decimal digits. *)
Fixpoint parseInt_loop (s : string) (acc : Z) : Z :=
  match s with
  | EmptyString => acc
  | String c rest => parseInt_loop rest (acc * 10 + (charCode c - 48))
  end.

Definition parseInt (s : string) : Z := parseInt_loop s 0.

End Js.

(** ** Outcomes of functions that can throw *)

(** [throw new Error(msg)] is [Thrown msg]. *)
Inductive Outcome (A : Type) : Type :=
| Returned (a : A)
| Thrown (message : string).

Arguments Returned {A} a.
Arguments Thrown {A} message.

Definition obind {A B} (o : Outcome A) (k : A -> Outcome B) : Outcome B :=
  match o with
  | Returned a => k a
  | Thrown e => Thrown e
  end.

Fixpoint omap {A B} (f : A -> Outcome B) (l : list A) : Outcome (list B) :=
  match l with
  | [] => Returned []
  | x :: rest =>
      obind (f x) (fun y => obind (omap f rest) (fun ys => Returned (y :: ys)))
  end.

(** The error kinds of the specification, as the messages of the code. *)
Definition dquote : string := String (ascii_of_nat 34) EmptyString.

Definition InvalidFormat (range : string) : string :=
  "Invalid range format: " ++ range.

Definition NotFound (sheetName : string) : string :=
  "Sheet " ++ dquote ++ sheetName ++ dquote ++ " not found in spreadsheet".

Definition InvalidGroupRule : string := "Invalid group rule".

Definition CreateFailed : string := "Failed to create destination sheet".

(** ** Column addresses *)

(** The loop of [columnLetterToIndex], from index [i] on. *)
Fixpoint columnLetterToIndex_loop (upper : string) (index : Z) : Z :=
  match upper with
  | EmptyString => index
  | String c rest =>
      columnLetterToIndex_loop rest (index * 26 + (Js.charCode c - 64))
  end.

Definition columnLetterToIndex (letter : string) : Z :=
  let upper := Js.toUpperCase letter in
  columnLetterToIndex_loop upper 0 - 1.

(** [number | string], the type of [source_column]. *)
Inductive ColumnRef : Type :=
| ColNumber (n : Z)
| ColLetters (s : string).

Definition resolveColumnIndex (column : ColumnRef) : Z :=
  match column with
  | ColNumber n => n
  | ColLetters s => columnLetterToIndex s
  end.

(** [ColumnRefSchema]: a non-negative integer, or a non-empty string of
    letters (anchored pattern, case-insensitive). *)
Definition ColumnRefSchema (c : ColumnRef) : bool :=
  match c with
  | ColNumber n => 0 <=? n
  | ColLetters s => Js.truthy s && Js.forall_string Js.is_letter s
  end.

(** ** A1 ranges *)

Record RangeSpec : Type := mkRange {
  sheetName : string;
  startCol : Z;
  startRow : Z;
  endCol : Z;
  endRow : Z
}.

(** [sheetName] and [rangeOnly] after the test on the exclamation mark. *)
Definition splitSheet (range : string) : string * string :=
  if Js.includes range "!"%char then
    let parts := Js.split "!"%char range in
    (Js.strip_quotes (nth 0 parts EmptyString), nth 1 parts EmptyString)
  else (EmptyString, range).

Definition startRefOf (rangeOnly : string) : string :=
  nth 0 (Js.split ":"%char rangeOnly) EmptyString.

(** [rangeParts[1] || startRef]: a missing or empty second part falls back
    to the first. *)
Definition endRefOf (rangeOnly : string) : string :=
  match nth_error (Js.split ":"%char rangeOnly) 1 with
  | Some part => if Js.truthy part then part else startRefOf rangeOnly
  | None => startRefOf rangeOnly
  end.

Definition parseA1Range (range : string) : Outcome RangeSpec :=
  let (sheetName, rangeOnly) := splitSheet range in
  let startRef := startRefOf rangeOnly in
  let endRef := endRefOf rangeOnly in
  match Js.match_ref startRef, Js.match_ref endRef with
  | Some (startLetters, startDigits), Some (endLetters, endDigits) =>
      let startCol := columnLetterToIndex startLetters in
      let endCol := columnLetterToIndex endLetters in
      let startRow :=
        if Js.truthy startDigits then Js.parseInt startDigits - 1 else 0 in
      let endRow :=
        if Js.truthy endDigits then Js.parseInt endDigits else 1000 in
      Returned (mkRange sheetName startCol startRow (endCol + 1) endRow)
  | _, _ => Thrown (InvalidFormat range)
  end.

(** ** The pivot-table model *)

Inductive DateTimeRuleType : Type :=
| SECOND | MINUTE | HOUR | HOUR_MINUTE | HOUR_MINUTE_AMPM
| DAY_OF_WEEK | DAY_OF_MONTH | DAY_OF_YEAR | DAY_MONTH
| MONTH | QUARTER | YEAR | YEAR_MONTH | YEAR_QUARTER | YEAR_MONTH_DAY.

Inductive SortOrder : Type := ASCENDING | DESCENDING.

Inductive SummarizeFunction : Type :=
| SUM | COUNT | COUNTA | COUNTUNIQUE | AVERAGE
| MAX | MIN | MEDIAN | PRODUCT | STDEV | STDEVP | VAR | VARP
| CUSTOM.

Inductive CalculatedDisplayType : Type :=
| PERCENT_OF_ROW_TOTAL | PERCENT_OF_COLUMN_TOTAL | PERCENT_OF_GRAND_TOTAL.

Inductive ConditionType : Type :=
| NUMBER_GREATER | NUMBER_GREATER_THAN_EQ
| NUMBER_LESS | NUMBER_LESS_THAN_EQ
| NUMBER_EQ | NUMBER_NOT_EQ
| NUMBER_BETWEEN | NUMBER_NOT_BETWEEN
| TEXT_CONTAINS | TEXT_NOT_CONTAINS
| TEXT_STARTS_WITH | TEXT_ENDS_WITH
| TEXT_EQ | TEXT_NOT_EQ
| DATE_EQ | DATE_BEFORE | DATE_AFTER
| DATE_ON_OR_BEFORE | DATE_ON_OR_AFTER
| DATE_BETWEEN | DATE_NOT_BETWEEN
| DATE_IS_VALID
| BLANK | NOT_BLANK.

Inductive ValueLayout : Type := HORIZONTAL | VERTICAL.

(** Sheet metadata, as the service reports it. *)
Record SheetProperties : Type := mkProps {
  sheetId : option Z;
  title : option string
}.

Record Sheet : Type := mkSheet {
  properties : option SheetProperties
}.

(** The [data] of a [spreadsheets.get] response. *)
Record Spreadsheet : Type := mkSpreadsheet {
  sheets : option (list Sheet)
}.

(** The [data] of a [spreadsheets.batchUpdate] response. *)
Record Reply : Type := mkReply {
  addSheet : option Sheet
}.

Record BatchUpdateResponse : Type := mkBatchUpdateResponse {
  replies : option (list Reply)
}.

Record GridRange : Type := mkGridRange {
  gr_sheetId : Z;
  startRowIndex : Z;
  startColumnIndex : Z;
  endRowIndex : Z;
  endColumnIndex : Z
}.

Record SortByValue : Type := mkSortByValue {
  value_index : Z
}.

(** [valueBucket]: the empty object has no [valuesIndex]. *)
Record ValueBucket : Type := mkValueBucket {
  valuesIndex : option Z
}.

Record PivotValueInput : Type := mkPivotValueInput {
  pv_source_column : option ColumnRef;
  pv_formula : option string;
  pv_summarize_function : SummarizeFunction;
  pv_name : option string;
  pv_calculated_display_type : option CalculatedDisplayType
}.

Record PivotValue : Type := mkPivotValue {
  summarizeFunction : SummarizeFunction;
  pv_sourceColumnOffset : option Z;
  formula : option string;
  name : option string;
  calculatedDisplayType : option CalculatedDisplayType
}.

(** A property holding a string is set only when the string is truthy. *)
Definition truthy_string (o : option string) : option string :=
  match o with
  | Some s => if Js.truthy s then Some s else None
  | None => None
  end.

Definition buildPivotValue (val : PivotValueInput) : PivotValue :=
  {| summarizeFunction := pv_summarize_function val;
     pv_sourceColumnOffset :=
       match pv_source_column val with
       | Some column => Some (resolveColumnIndex column)
       | None => None
       end;
     formula :=
       match pv_source_column val with
       | Some _ => None
       | None => truthy_string (pv_formula val)
       end;
     name := truthy_string (pv_name val);
     calculatedDisplayType := pv_calculated_display_type val |}.

(** The two refinements of [PivotValueSchema]: each one that fails adds
    its message to the issues of the parse, which succeeds when there are
    none. *)
Definition defined {A} (o : option A) : bool :=
  match o with
  | Some _ => true
  | None => false
  end.

Definition PivotValueSchema_refinements (data : PivotValueInput) : list string :=
  ((if defined (pv_source_column data) || defined (pv_formula data)
    then [] else ["Either source_column or formula is required"])
   ++
   if negb (defined (pv_source_column data) && defined (pv_formula data))
   then [] else ["Cannot specify both source_column and formula"])%list.

Section Compiler.

(** JavaScript numbers that the compiler only carries through, and their
    conversion to a string. *)
Variable number : Type.
Variable numberToString : number -> string.

(** [string | number] *)
Inductive Scalar : Type :=
| Str (s : string)
| Num (n : number).

(** [String(v)] *)
Definition JsString (v : Scalar) : string :=
  match v with
  | Str s => s
  | Num n => numberToString n
  end.

(** *** Group rules *)

Record DateTimeRuleInput : Type := mkDateTimeRuleInput {
  dt_type : DateTimeRuleType
}.

Record HistogramRuleInput : Type := mkHistogramRuleInput {
  h_interval : number;
  h_start : option number;
  h_end : option number
}.

Record ManualRuleGroupInput : Type := mkManualRuleGroupInput {
  group_name : string;
  items : list Scalar
}.

Record ManualRuleInput : Type := mkManualRuleInput {
  groups : list ManualRuleGroupInput
}.

(** A group rule is tested by the presence of its keys. *)
Record GroupRuleInput : Type := mkGroupRuleInput {
  date_time : option DateTimeRuleInput;
  histogram : option HistogramRuleInput;
  manual : option ManualRuleInput
}.

Inductive ExtendedValue : Type :=
| stringValue (s : string)
| numberValue (n : number).

Record ManualRuleGroup : Type := mkManualRuleGroup {
  groupName : ExtendedValue;
  mg_items : list ExtendedValue
}.

Inductive PivotGroupRule : Type :=
| dateTimeRule (type : DateTimeRuleType)
| histogramRule (interval : number) (start : option number) (end_ : option number)
| manualRule (groups : list ManualRuleGroup).

Definition buildGroupRule (rule : GroupRuleInput) : Outcome PivotGroupRule :=
  match date_time rule, histogram rule, manual rule with
  | Some dt, _, _ => Returned (dateTimeRule (dt_type dt))
  | None, Some h, _ =>
      Returned (histogramRule (h_interval h) (h_start h) (h_end h))
  | None, None, Some m =>
      Returned
        (manualRule
           (map
              (fun g =>
                 {| groupName := stringValue (group_name g);
                    mg_items :=
                      map
                        (fun item =>
                           match item with
                           | Str s => stringValue s
                           | Num n => numberValue n
                           end)
                        (items g) |})
              (groups m)))
  | None, None, None => Thrown InvalidGroupRule
  end.

(** *** Pivot groups *)

Record PivotGroupInput : Type := mkPivotGroupInput {
  source_column : ColumnRef;
  label : option string;
  show_totals : bool;
  sort_order : option SortOrder;
  sort_by_value : option SortByValue;
  group_rule : option GroupRuleInput;
  group_limit : option Z
}.

Record PivotGroup : Type := mkPivotGroup {
  sourceColumnOffset : Z;
  showTotals : bool;
  pg_label : option string;
  sortOrder : option SortOrder;
  valueBucket : option ValueBucket;
  groupRule : option PivotGroupRule;
  groupLimit : option Z
}.

Definition buildPivotGroup (group : PivotGroupInput) : Outcome PivotGroup :=
  let pg_label := truthy_string (label group) in
  let sortOrder := sort_order group in
  let valueBucket :=
    match sort_by_value group with
    | Some sbv => Some {| valuesIndex := Some (value_index sbv) |}
    | None =>
        match sort_order group with
        | Some _ => Some {| valuesIndex := None |}
        | None => None
        end
    end in
  obind
    (match group_rule group with
     | Some rule => obind (buildGroupRule rule) (fun r => Returned (Some r))
     | None => Returned None
     end)
    (fun groupRule =>
       let groupLimit :=
         match group_limit group with
         | Some n => if n =? 0 then None else Some n
         | None => None
         end in
       Returned
         {| sourceColumnOffset := resolveColumnIndex (source_column group);
            showTotals := show_totals group;
            pg_label := pg_label;
            sortOrder := sortOrder;
            valueBucket := valueBucket;
            groupRule := groupRule;
            groupLimit := groupLimit |}).

(** *** Pivot filters *)

Record FilterConditionInput : Type := mkFilterConditionInput {
  fc_type : ConditionType;
  fc_values : option (list Scalar)
}.

Record PivotFilterInput : Type := mkPivotFilterInput {
  pf_source_column : ColumnRef;
  visible_values : option (list string);
  condition : option FilterConditionInput
}.

Record ConditionValue : Type := mkConditionValue {
  userEnteredValue : string
}.

Record BooleanCondition : Type := mkBooleanCondition {
  bc_type : ConditionType;
  bc_values : option (list ConditionValue)
}.

Record PivotFilterCriteria : Type := mkPivotFilterCriteria {
  visibleValues : option (list string);
  fc_condition : option BooleanCondition
}.

Record PivotFilterSpec : Type := mkPivotFilterSpec {
  columnOffsetIndex : Z;
  filterCriteria : option PivotFilterCriteria
}.

Definition buildPivotFilters (filters : list PivotFilterInput)
  : list PivotFilterSpec :=
  map
    (fun filter =>
       {| columnOffsetIndex := resolveColumnIndex (pf_source_column filter);
          filterCriteria :=
            Some
              match visible_values filter with
              | Some vs =>
                  {| visibleValues := Some vs; fc_condition := None |}
              | None =>
                  match condition filter with
                  | Some c =>
                      {| visibleValues := None;
                         fc_condition :=
                           Some
                             {| bc_type := fc_type c;
                                bc_values :=
                                  option_map
                                    (map
                                       (fun v =>
                                          {| userEnteredValue := JsString v |}))
                                    (fc_values c) |} |}
                  | None =>
                      {| visibleValues := None; fc_condition := None |}
                  end
              end |})
    filters.

(** *** The pivot table and the calls to the spreadsheet service *)

Record PivotTable : Type := mkPivotTable {
  source : GridRange;
  pt_rows : option (list PivotGroup);
  pt_columns : option (list PivotGroup);
  pt_values : list PivotValue;
  valueLayout : ValueLayout;
  filterSpecs : option (list PivotFilterSpec)
}.

(** The two requests the handler sends in a [batchUpdate]: an [addSheet]
    with the title of the new sheet, and an [updateCells] that writes one
    cell holding the pivot table at row 0, column 0 of the sheet
    [start_sheetId], with the field mask [pivotTable]. *)
Inductive Request : Type :=
| addSheetRequest (title : string)
| updateCellsRequest (pivotTable : PivotTable) (start_sheetId : Z).

Inductive Call : Type :=
| Get (spreadsheetId fields : string)
| BatchUpdate (spreadsheetId : string) (requests : list Request).

Definition is_mutation (c : Call) : bool :=
  match c with
  | Get _ _ => false
  | BatchUpdate _ _ => true
  end.

(** The client of the spreadsheet service.  An answer may depend on the
    calls made before it; a rejected promise is a [Thrown]. *)
Record SheetsClient : Type := mkSheetsClient {
  answer_get : list Call -> string -> string -> Outcome Spreadsheet;
  answer_batchUpdate :
    list Call -> string -> list Request -> Outcome BatchUpdateResponse
}.

(** Computations that call the service: the log of the calls made so far
    goes in, the outcome and the extended log come out. *)
Definition M (A : Type) : Type := list Call -> Outcome A * list Call.

Definition ret {A} (a : A) : M A := fun log => (Returned a, log).

Definition throw {A} (message : string) : M A :=
  fun log => (Thrown message, log).

Definition bind {A B} (m : M A) (k : A -> M B) : M B :=
  fun log =>
    match m log with
    | (Returned a, log') => k a log'
    | (Thrown e, log') => (Thrown e, log')
    end.

Definition lift {A} (o : Outcome A) : M A := fun log => (o, log).

Notation "x <- m ;; k" := (bind m (fun x => k))
  (at level 61, m at next level, right associativity).

Definition spreadsheets_get (client : SheetsClient)
  (spreadsheetId fields : string) : M Spreadsheet :=
  fun log =>
    (answer_get client log spreadsheetId fields,
     (log ++ [Get spreadsheetId fields])%list).

Definition spreadsheets_batchUpdate (client : SheetsClient)
  (spreadsheetId : string) (requests : list Request) : M BatchUpdateResponse :=
  fun log =>
    (answer_batchUpdate client log spreadsheetId requests,
     (log ++ [BatchUpdate spreadsheetId requests])%list).

Definition has_title (sheetName : string) (s : Sheet) : bool :=
  match properties s with
  | Some props =>
      match title props with
      | Some t => String.eqb t sheetName
      | None => false
      end
  | None => false
  end.

(** [sheet?.properties?.sheetId] *)
Definition sheetId_of (sheet : option Sheet) : option Z :=
  match sheet with
  | Some s =>
      match properties s with
      | Some props => sheetId props
      | None => None
      end
  | None => None
  end.

Definition sheets_or_empty (data : Spreadsheet) : list Sheet :=
  match sheets data with
  | Some l => l
  | None => []
  end.

Definition getSheetIdByName (client : SheetsClient)
  (spreadsheetId sheetName : string) : M Z :=
  response <- spreadsheets_get client spreadsheetId "sheets.properties" ;;
  let sheet := find (has_title sheetName) (sheets_or_empty response) in
  match sheetId_of sheet with
  | Some id => if id =? 0 then throw (NotFound sheetName) else ret id
  | None => throw (NotFound sheetName)
  end.

(** *** The handler of [sheets_create_pivot_table] *)

Record CreatePivotTableInput : Type := mkCreatePivotTableInput {
  spreadsheet_id : string;
  source_range : string;
  destination_sheet_id : option Z;
  destination_sheet_name : string;
  rows : option (list PivotGroupInput);
  columns : option (list PivotGroupInput);
  values : list PivotValueInput;
  filters : option (list PivotFilterInput);
  value_layout : ValueLayout
}.

Record Output : Type := mkOutput {
  out_spreadsheetId : string;
  pivotTableSheetId : Z;
  pivotTableSheetName : string;
  sourceRange : string;
  rowGroups : nat;
  columnGroups : nat;
  valueAggregations : nat;
  out_filters : nat
}.

(** The block of the handler that assigns [sourceSheetId]: the sheet is
    looked up by name, or is the first sheet, with 0 when there is none. *)
Definition sourceSheetId (client : SheetsClient)
  (params : CreatePivotTableInput) (parsedRange : RangeSpec) : M Z :=
  if Js.truthy (sheetName parsedRange) then
    getSheetIdByName client (spreadsheet_id params) (sheetName parsedRange)
  else
    spreadsheet <-
      spreadsheets_get client (spreadsheet_id params) "sheets.properties" ;;
    ret
      match sheetId_of (nth_error (sheets_or_empty spreadsheet) 0) with
      | Some id => id
      | None => 0
      end.

(** The block of the handler that assigns [destinationSheetId] and
    [destinationSheetName]; a new sheet is added when the parameters give
    no identifier. *)
Definition destinationSheet (client : SheetsClient)
  (params : CreatePivotTableInput) : M (Z * string) :=
  let destinationSheetName := destination_sheet_name params in
  match destination_sheet_id params with
  | Some id => ret (id, destinationSheetName)
  | None =>
      addSheetResponse <-
        spreadsheets_batchUpdate client (spreadsheet_id params)
          [addSheetRequest destinationSheetName] ;;
      let added :=
        match replies addSheetResponse with
        | Some (reply :: _) =>
            match addSheet reply with
            | Some sheet => properties sheet
            | None => None
            end
        | _ => None
        end in
      let newSheetId :=
        match added with
        | Some props => sheetId props
        | None => None
        end in
      let destinationSheetName :=
        match added with
        | Some props =>
            match truthy_string (title props) with
            | Some t => t
            | None => destinationSheetName
            end
        | None => destinationSheetName
        end in
      match newSheetId with
      | Some id => ret (id, destinationSheetName)
      | None => throw CreateFailed
      end
  end.

Definition list_or_empty {A} (o : option (list A)) : list A :=
  match o with
  | Some l => l
  | None => []
  end.

Definition non_empty {A} (l : list A) : option (list A) :=
  match l with
  | [] => None
  | _ :: _ => Some l
  end.

(** The block of the handler that builds [pivotRows], [pivotColumns],
    [pivotValues] and [pivotFilters], and the [pivotTable] object. *)
Definition buildPivotTable (params : CreatePivotTableInput)
  (sourceSheetId : Z) (parsedRange : RangeSpec) : Outcome PivotTable :=
  obind (omap buildPivotGroup (list_or_empty (rows params))) (fun pivotRows =>
  obind (omap buildPivotGroup (list_or_empty (columns params))) (fun pivotColumns =>
  let pivotValues := map buildPivotValue (values params) in
  let pivotFilters := option_map buildPivotFilters (filters params) in
  Returned
    {| source :=
         {| gr_sheetId := sourceSheetId;
            startRowIndex := startRow parsedRange;
            startColumnIndex := startCol parsedRange;
            endRowIndex := endRow parsedRange;
            endColumnIndex := endCol parsedRange |};
       pt_rows := non_empty pivotRows;
       pt_columns := non_empty pivotColumns;
       pt_values := pivotValues;
       valueLayout := value_layout params;
       filterSpecs := pivotFilters |})).

(** The handler.  [getSheetsClient] is the outcome of obtaining the
    client.  A [Thrown] outcome stands for the error response the handler
    builds in its [catch]. *)
Definition createPivotTable (getSheetsClient : Outcome SheetsClient)
  (params : CreatePivotTableInput) : M Output :=
  client <- lift getSheetsClient ;;
  parsedRange <- lift (parseA1Range (source_range params)) ;;
  sourceId <- sourceSheetId client params parsedRange ;;
  destination <- destinationSheet client params ;;
  pivotTable <- lift (buildPivotTable params sourceId parsedRange) ;;
  _ <-
    spreadsheets_batchUpdate client (spreadsheet_id params)
      [updateCellsRequest pivotTable (fst destination)] ;;
  ret
    {| out_spreadsheetId := spreadsheet_id params;
       pivotTableSheetId := fst destination;
       pivotTableSheetName := snd destination;
       sourceRange := source_range params;
       rowGroups := List.length (list_or_empty (rows params));
       columnGroups := List.length (list_or_empty (columns params));
       valueAggregations := List.length (values params);
       out_filters := List.length (list_or_empty (filters params)) |}.

End Compiler.

Arguments Str {number} s.
Arguments Num {number} n.
Arguments stringValue {number} s.
Arguments numberValue {number} n.
Arguments buildGroupRule {number} rule.
Arguments buildPivotGroup {number} group.
Arguments buildPivotFilters {number} numberToString filters.
Arguments getSheetIdByName {number} client spreadsheetId sheetName _.
Arguments sourceSheetId {number} client params parsedRange _.
Arguments destinationSheet {number} client params _.
Arguments buildPivotTable {number} numberToString params sourceSheetId parsedRange.
Arguments createPivotTable {number} numberToString getSheetsClient params _.
Arguments is_mutation {number} c.
Arguments ret {number A} a _.
Arguments throw {number A} message _.
Arguments bind {number A B} m k _.
Arguments lift {number A} o _.
Arguments date_time {number} g.
Arguments histogram {number} g.
Arguments manual {number} g.
Arguments source_column {number} p.
Arguments label {number} p.
Arguments show_totals {number} p.
Arguments sort_order {number} p.
Arguments sort_by_value {number} p.
Arguments group_rule {number} p.
Arguments group_limit {number} p.
Arguments sourceColumnOffset {number} p.
Arguments showTotals {number} p.
Arguments pg_label {number} p.
Arguments sortOrder {number} p.
Arguments valueBucket {number} p.
Arguments groupRule {number} p.
Arguments groupLimit {number} p.
Arguments fc_type {number} f.
Arguments fc_values {number} f.
Arguments pf_source_column {number} p.
Arguments visible_values {number} p.
Arguments condition {number} p.
Arguments source {number} p.
Arguments pt_rows {number} p.
Arguments pt_columns {number} p.
Arguments pt_values {number} p.
Arguments valueLayout {number} p.
Arguments filterSpecs {number} p.
Arguments addSheetRequest {number} title.
Arguments updateCellsRequest {number} pivotTable start_sheetId.
Arguments Get {number} spreadsheetId fields.
Arguments BatchUpdate {number} spreadsheetId requests.
Arguments answer_get {number} s _ _ _.
Arguments answer_batchUpdate {number} s _ _ _.
Arguments spreadsheet_id {number} c.
Arguments source_range {number} c.
Arguments destination_sheet_id {number} c.
Arguments destination_sheet_name {number} c.
Arguments rows {number} c.
Arguments columns {number} c.
Arguments values {number} c.
Arguments filters {number} c.
Arguments value_layout {number} c.
Arguments spreadsheets_get {number} client spreadsheetId fields _.
Arguments spreadsheets_batchUpdate {number} client spreadsheetId requests _.

(** ** The other blocks of the tool module *)

(** The refinement of [CreatePivotTableSchema] (at least one row or column
    grouping) and the minimum length of its [values]. *)
Definition CreatePivotTableSchema_refinement {number : Type}
  (data : CreatePivotTableInput number) : bool :=
  match rows data with
  | Some (_ :: _) => true
  | _ =>
      match columns data with
      | Some (_ :: _) => true
      | _ => false
      end
  end.

Definition CreatePivotTableSchema_values_min {number : Type}
  (data : CreatePivotTableInput number) : bool :=
  (1 <=? List.length (values data))%nat.

Definition CHARACTER_LIMIT : Z := 25000.

Definition newline : string := String (ascii_of_nat 10) EmptyString.

Definition truncation_notice : string :=
  newline ++ newline ++ "[Data truncated...]".

(** The truncation of the markdown text in the handlers of
    [sheets_get_values] and [sheets_batch_get_values]. *)
Definition truncate (textOutput : string) : string :=
  if Z.of_nat (String.length textOutput) >? CHARACTER_LIMIT then
    String.substring 0 (Z.to_nat CHARACTER_LIMIT) textOutput ++ truncation_notice
  else textOutput.

(** The [sheets] of the request body in the handler of
    [sheets_create_spreadsheet]: each title with its index as identifier,
    from [index] on. *)
Fixpoint sheets_from (index : Z) (sheet_titles : list string) : list Sheet :=
  match sheet_titles with
  | [] => []
  | sheet_title :: rest =>
      {| properties :=
           Some {| sheetId := Some index; title := Some sheet_title |} |}
      :: sheets_from (index + 1) rest
  end.

(** The request body: the [sheets] key is set only for a non-empty list of
    titles. *)
Record CreateRequestBody : Type := mkCreateRequestBody {
  rb_title : string;
  rb_sheets : option (list Sheet)
}.

Definition createRequestBody (spreadsheet_title : string)
  (sheet_titles : option (list string)) : CreateRequestBody :=
  {| rb_title := spreadsheet_title;
     rb_sheets :=
       match sheet_titles with
       | Some titles =>
           if (0 <? List.length titles)%nat then Some (sheets_from 0 titles)
           else None
       | None => None
       end |}.

(** The cells of a value range, and [formatValuesAsMarkdown]. *)
Inductive Cell (number : Type) : Type :=
| CellString (s : string)
| CellNumber (n : number)
| CellBoolean (b : bool)
| CellNull.

Arguments CellString {number} s.
Arguments CellNumber {number} n.
Arguments CellBoolean {number} b.
Arguments CellNull {number}.

(** The text of a cell: empty for [null], [String(cell)] otherwise. *)
Definition cellText {number : Type} (numberToString : number -> string)
  (cell : Cell number) : string :=
  match cell with
  | CellString s => s
  | CellNumber n => numberToString n
  | CellBoolean true => "true"
  | CellBoolean false => "false"
  | CellNull => EmptyString
  end.

(** The decimal digits of an index, as a template literal prints it. *)
Definition decimal (n : nat) : string :=
  DecimalString.NilEmpty.string_of_uint (Nat.to_uint n).

(** The headers [Col 1], [Col 2], ... of the cells of the first row, from
    index [i] on. *)
Fixpoint headers_from {A : Type} (i : nat) (row : list A) : list string :=
  match row with
  | [] => []
  | _ :: rest => ("Col " ++ decimal (i + 1)) :: headers_from (i + 1) rest
  end.

Definition table_line (cells : list string) : string :=
  "| " ++ String.concat " | " cells ++ " |".

(** The array [lines] at the end of [formatValuesAsMarkdown], for a
    non-empty array of rows whose first row is [first]. *)
Definition markdown_lines {number : Type} (numberToString : number -> string)
  (first : list (Cell number)) (values : list (list (Cell number)))
  (range : string) : list string :=
  let headers := headers_from 0 first in
  let heading := "## Data from " ++ range in
  (heading :: EmptyString
   :: table_line headers
   :: table_line (map (fun _ => "---") headers)
   :: map (fun row => table_line (map (cellText numberToString) row)) values).

Definition formatValuesAsMarkdown {number : Type}
  (numberToString : number -> string)
  (values : option (list (list (Cell number)))) (range : string) : string :=
  match values with
  | None => "No data found in range: " ++ range
  | Some [] => "No data found in range: " ++ range
  | Some (first :: rest) =>
      String.concat newline
        (markdown_lines numberToString first (first :: rest) range)
  end.

(** ** Vocabulary of the specification *)

(** A call of a function whose body contains no [throw]: it returns. *)
Definition call {A B} (f : A -> B) (x : A) : Outcome B := Returned (f x).

Definition fails {A} (o : Outcome A) : Prop := exists e, o = Thrown e.

(** A string of letters A-Z, in either case. *)
Definition letters_only (s : string) : bool := Js.forall_string Js.is_letter s.

(** The specification's [toIndex], in its words: normalise to upper case,
    fold left to right with [index * 26 + (charCode - 'A' + 1)], subtract 1. *)
Definition toIndex_spec (letters : string) : Z :=
  fold_left
    (fun index c => index * 26 + (Js.charCode c - Js.charCode "A"%char + 1))
    (list_ascii_of_string (Js.toUpperCase letters)) 0 - 1.

(** The grammar of a cell reference: one or more letters, then digits. *)
Definition ref_pattern (s : string) : Prop :=
  exists letters digits,
    s = letters ++ digits /\
    letters <> EmptyString /\
    letters_only letters = true /\
    Js.forall_string Js.is_digit digits = true.

(** The cell-range portion of a range string, as [parseA1Range] takes it. *)
Definition rangeOnlyOf (range : string) : string := snd (splitSheet range).

(** The references of a range string in the specification's words: split
    once at the exclamation mark to drop a sheet name, split the rest once
    at the colon; without a colon the end reference is the start reference. *)
Fixpoint split_once (sep : ascii) (s : string) : option (string * string) :=
  match s with
  | EmptyString => None
  | String c rest =>
      if Ascii.eqb c sep then Some (EmptyString, rest)
      else
        match split_once sep rest with
        | Some (before, after) => Some (String c before, after)
        | None => None
        end
  end.

Definition spec_rangePortion (range : string) : string :=
  match split_once "!" range with
  | Some (_, portion) => portion
  | None => range
  end.

Definition spec_startRef (range : string) : string :=
  match split_once ":" (spec_rangePortion range) with
  | Some (startRef, _) => startRef
  | None => spec_rangePortion range
  end.

Definition spec_endRef (range : string) : string :=
  match split_once ":" (spec_rangePortion range) with
  | Some (_, endRef) => endRef
  | None => spec_rangePortion range
  end.

(** A first character outside [p] stops the scan. *)
Definition stops (p : ascii -> bool) (s : string) : bool :=
  match s with
  | EmptyString => true
  | String c _ => negb (p c)
  end.

(** A pivot value with a source column and a formula, and one with
    neither. *)
Definition value_with_both : PivotValueInput :=
  {| pv_source_column := Some (ColLetters "E");
     pv_formula := Some "=Revenue/Quantity";
     pv_summarize_function := SUM;
     pv_name := None;
     pv_calculated_display_type := None |}.

Definition value_with_neither : PivotValueInput :=
  {| pv_source_column := None;
     pv_formula := None;
     pv_summarize_function := SUM;
     pv_name := None;
     pv_calculated_display_type := None |}.

(** What one compiled filter holds, given its input. *)
Definition filter_compiled {number : Type}
  (filter : PivotFilterInput number) (spec : PivotFilterSpec) : Prop :=
  exists criteria,
    filterCriteria spec = Some criteria /\
    match visible_values filter, condition filter with
    | Some allowed, _ =>
        criteria = {| visibleValues := Some allowed; fc_condition := None |}
    | None, Some c =>
        visibleValues criteria = None /\
        exists compiled,
          fc_condition criteria = Some compiled /\ bc_type compiled = fc_type c
    | None, None =>
        criteria = {| visibleValues := None; fc_condition := None |}
    end.

(** An instance without carried-through numbers. *)
Definition no_number : Type := Empty_set.

Definition no_number_string (n : no_number) : string :=
  match n with end.

(** The field mask of the two metadata queries. *)
Definition metadata_fields : string := "sheets.properties".

(** The pivot-table specification of the end-to-end example, with the
    defaults of the schema filled in. *)
Definition sales_spec {number : Type} (spreadsheetId : string)
  (destination : option Z) : CreatePivotTableInput number :=
  {| spreadsheet_id := spreadsheetId;
     source_range := "Sales!A1:E100";
     destination_sheet_id := destination;
     destination_sheet_name := "Pivot Table";
     rows :=
       Some
         [{| source_column := ColLetters "A";
             label := None;
             show_totals := true;
             sort_order := None;
             sort_by_value := None;
             group_rule := None;
             group_limit := None |}];
     columns := None;
     values :=
       [{| pv_source_column := Some (ColLetters "E");
           pv_formula := None;
           pv_summarize_function := SUM;
           pv_name := None;
           pv_calculated_display_type := None |}];
     filters := None;
     value_layout := HORIZONTAL |}.

Definition named_sheet (id : Z) (name : string) : Sheet :=
  {| properties := Some {| sheetId := Some id; title := Some name |} |}.

(** A spreadsheet with the sheets Summary (0) and Sales (3), where a new
    sheet gets the identifier 7. *)
Definition sales_client : SheetsClient no_number :=
  {| answer_get := fun _ _ _ =>
       Returned
         {| sheets := Some [named_sheet 0 "Summary"; named_sheet 3 "Sales"] |};
     answer_batchUpdate := fun _ _ _ =>
       Returned
         {| replies :=
              Some [{| addSheet := Some (named_sheet 7 "Pivot Table") |}] |} |}.

(** A spreadsheet without sheets. *)
Definition empty_client : SheetsClient no_number :=
  {| answer_get := fun _ _ _ => Returned {| sheets := Some [] |};
     answer_batchUpdate := fun _ _ _ => Returned {| replies := None |} |}.

Definition unnamed_range : RangeSpec :=
  {| sheetName := EmptyString;
     startCol := 0; startRow := 0; endCol := 5; endRow := 100 |}.

Definition sales_range : RangeSpec :=
  {| sheetName := "Sales";
     startCol := 0; startRow := 0; endCol := 5; endRow := 100 |}.

Definition summary_range : RangeSpec :=
  {| sheetName := "Summary";
     startCol := 0; startRow := 0; endCol := 5; endRow := 100 |}.

Definition no_sheet_titled (sheetName : string) (l : list Sheet) : Prop :=
  Forall (fun s => has_title sheetName s = false) l.

(** Failure of the first two steps of the handler. *)
Definition parse_fails {number : Type}
  (params : CreatePivotTableInput number) : Prop :=
  fails (parseA1Range (source_range params)).

Definition resolution_fails {number : Type}
  (getSheetsClient : Outcome (SheetsClient number))
  (params : CreatePivotTableInput number) (log : list (Call number)) : Prop :=
  exists client parsedRange,
    getSheetsClient = Returned client /\
    parseA1Range (source_range params) = Returned parsedRange /\
    fails (fst (sourceSheetId client params parsedRange log)).

(** The keys of a group rule: at least one, exactly one. *)
Definition has_key {number : Type} (rule : GroupRuleInput number) : bool :=
  defined (date_time rule) || defined (histogram rule) || defined (manual rule).

Definition one_key {number : Type} (rule : GroupRuleInput number) : bool :=
  match date_time rule, histogram rule, manual rule with
  | Some _, None, None => true
  | None, Some _, None => true
  | None, None, Some _ => true
  | _, _, _ => false
  end.

(** A pivot group whose group rule, if any, has a key. *)
Definition group_compiles {number : Type} (group : PivotGroupInput number)
  : bool :=
  match group_rule group with
  | Some rule => has_key rule
  | None => true
  end.

(** The calls of a complete run of the handler: the metadata query, the
    [addSheet] when the parameters give no destination identifier, the
    [updateCells]. *)
Definition addSheet_calls {number : Type}
  (params : CreatePivotTableInput number) : list (Call number) :=
  match destination_sheet_id params with
  | Some _ => []
  | None =>
      [BatchUpdate (spreadsheet_id params)
         [addSheetRequest (destination_sheet_name params)]]
  end.

Definition planned_calls {number : Type}
  (params : CreatePivotTableInput number) (pivotTable : PivotTable number)
  (destinationId : Z) : list (Call number) :=
  (Get (spreadsheet_id params) metadata_fields
   :: addSheet_calls params
   ++ [BatchUpdate (spreadsheet_id params)
         [updateCellsRequest pivotTable destinationId]])%list.

(** A pivot table without groups and values. *)
Definition empty_pivotTable {number : Type} : PivotTable number :=
  {| source :=
       {| gr_sheetId := 0;
          startRowIndex := 0; startColumnIndex := 0;
          endRowIndex := 0; endColumnIndex := 0 |};
     pt_rows := None;
     pt_columns := None;
     pt_values := [];
     valueLayout := HORIZONTAL;
     filterSpecs := None |}.

(** A group whose group rule has no key. *)
Definition keyless_group {number : Type} : PivotGroupInput number :=
  {| source_column := ColLetters "A";
     label := None;
     show_totals := true;
     sort_order := None;
     sort_by_value := None;
     group_rule :=
       Some {| date_time := None; histogram := None; manual := None |};
     group_limit := None |}.

(** The example specification with a keyless row group, without destination
    identifier. *)
Definition keyless_spec {number : Type} : CreatePivotTableInput number :=
  {| spreadsheet_id := "s1";
     source_range := "Sales!A1:E100";
     destination_sheet_id := None;
     destination_sheet_name := "Pivot Table";
     rows := Some [keyless_group];
     columns := None;
     values := values (sales_spec (number := number) "s1" None);
     filters := None;
     value_layout := HORIZONTAL |}.

(** The number of line breaks of a text. *)
Fixpoint line_breaks (s : string) : nat :=
  match s with
  | EmptyString => 0
  | String c rest =>
      ((if Ascii.eqb c (ascii_of_nat 10) then 1 else 0) + line_breaks rest)%nat
  end.

(** A text in which [sep] occurs at most once. *)
Definition at_most_once (sep : ascii) (s : string) : bool :=
  match split_once sep s with
  | Some (_, after) => negb (Js.includes after sep)
  | None => true
  end.

(** The end reference in the specification's words, with an empty one
    (nothing after the colon) replaced by the start reference. *)
Definition spec_endRef_or_start (range : string) : string :=
  if Js.truthy (spec_endRef range) then spec_endRef range
  else spec_startRef range.

(** The sizes within which the numbers of the code, which are IEEE
    doubles, are the integers of the embedding: the index of a column of at
    most 11 letters and a row number of at most 15 digits stay below 2^53,
    with all the intermediate values of their computation. *)
Definition exact_letters (letters : string) : Prop :=
  (String.length letters <= 11)%nat.

Definition exact_digits (digits : string) : Prop :=
  (String.length digits <= 15)%nat.

(** ** Characters and strings *)

Ltac ascii_cases c :=
  destruct c as [[|] [|] [|] [|] [|] [|] [|] [|]];
  vm_compute; intros; try reflexivity; try discriminate.

Lemma upper_lower_char (c : ascii) :
  Js.upper_char (Js.lower_char c) = Js.upper_char c.
Proof. ascii_cases c. Qed.

Lemma upper_upper_char (c : ascii) :
  Js.upper_char (Js.upper_char c) = Js.upper_char c.
Proof. ascii_cases c. Qed.

Lemma letter_not_digit (c : ascii) :
  Js.is_letter c = true -> Js.is_digit c = false.
Proof. ascii_cases c. Qed.

Lemma digit_not_letter (c : ascii) :
  Js.is_digit c = true -> Js.is_letter c = false.
Proof. ascii_cases c. Qed.

Lemma letter_not_colon (c : ascii) :
  Js.is_letter c = true -> Ascii.eqb c ":" = false.
Proof. ascii_cases c. Qed.

Lemma letter_not_bang (c : ascii) :
  Js.is_letter c = true -> Ascii.eqb c "!" = false.
Proof. ascii_cases c. Qed.

Lemma upper_char_letter (c : ascii) :
  Js.is_letter c = true -> Js.is_upper (Js.upper_char c) = true.
Proof. ascii_cases c. Qed.

Lemma toUpperCase_letters (s : string) :
  Js.forall_string Js.is_letter s = true ->
  Js.forall_string Js.is_upper (Js.toUpperCase s) = true.
Proof.
  unfold Js.toUpperCase. induction s as [|c s IH]; simpl; [reflexivity|].
  intros H. apply andb_prop in H as [Hc Hs].
  now rewrite (upper_char_letter _ Hc), (IH Hs).
Qed.

Lemma map_string_compose (f g h : ascii -> ascii) (s : string) :
  (forall c, f (g c) = h c) ->
  Js.map_string f (Js.map_string g s) = Js.map_string h s.
Proof.
  intros Hc. induction s as [|c s IH]; simpl; [reflexivity|].
  now rewrite Hc, IH.
Qed.

Lemma toUpperCase_toLowerCase (s : string) :
  Js.toUpperCase (Js.toLowerCase s) = Js.toUpperCase s.
Proof. apply map_string_compose, upper_lower_char. Qed.

Lemma toUpperCase_idempotent (s : string) :
  Js.toUpperCase (Js.toUpperCase s) = Js.toUpperCase s.
Proof. apply map_string_compose, upper_upper_char. Qed.

Lemma forall_string_app (p : ascii -> bool) (a b : string) :
  Js.forall_string p (a ++ b) = Js.forall_string p a && Js.forall_string p b.
Proof.
  induction a as [|c a IH]; simpl; [reflexivity|].
  now rewrite IH, andb_assoc.
Qed.

Lemma append_empty_r (s : string) : s ++ EmptyString = s.
Proof. induction s as [|c s IH]; simpl; [reflexivity | now rewrite IH]. Qed.

Lemma truthy_true (s : string) : Js.truthy s = true <-> s <> EmptyString.
Proof. destruct s; simpl; split; congruence. Qed.

Lemma truthy_false (s : string) : Js.truthy s = false <-> s = EmptyString.
Proof. destruct s; simpl; split; congruence. Qed.

(** *** Scanning a prefix *)

Lemma span_sound (p : ascii -> bool) (s pre post : string) :
  Js.span p s = (pre, post) ->
  s = pre ++ post /\ Js.forall_string p pre = true.
Proof.
  revert pre post. induction s as [|c s IH]; simpl; intros pre post H.
  - inversion H; subst. now split.
  - destruct (p c) eqn:Hc.
    + destruct (Js.span p s) as [pre' post'] eqn:Hs.
      inversion H; subst. destruct (IH _ _ eq_refl) as [-> Hall].
      simpl. now rewrite Hc, Hall.
    + inversion H; subst. now split.
Qed.

Lemma span_complete (p : ascii -> bool) (pre post : string) :
  Js.forall_string p pre = true -> stops p post = true ->
  Js.span p (pre ++ post) = (pre, post).
Proof.
  intros Hpre Hpost. induction pre as [|c pre IH]; simpl in *.
  - destruct post as [|d post]; simpl in *; [reflexivity|].
    now destruct (p d).
  - apply andb_prop in Hpre as [Hc Hpre]. now rewrite Hc, IH.
Qed.

Lemma digits_stop_letters (digits : string) :
  Js.forall_string Js.is_digit digits = true -> stops Js.is_letter digits = true.
Proof.
  destruct digits as [|d digits]; simpl; [reflexivity|].
  intros H. apply andb_prop in H as [Hd _].
  now rewrite (digit_not_letter _ Hd).
Qed.

(** *** The pattern of a cell reference *)

Lemma match_ref_sound (s letters digits : string) :
  Js.match_ref s = Some (letters, digits) ->
  s = letters ++ digits /\
  letters <> EmptyString /\
  letters_only letters = true /\
  Js.forall_string Js.is_digit digits = true.
Proof.
  unfold Js.match_ref.
  destruct (Js.span Js.is_letter s) as [l rest] eqn:Hl.
  destruct (Js.span Js.is_digit rest) as [d tail] eqn:Hd.
  destruct (Js.truthy l && negb (Js.truthy tail)) eqn:Hok; [|discriminate].
  intros H; inversion H; subst.
  apply andb_prop in Hok as [Hnonempty Htail].
  apply negb_true_iff, truthy_false in Htail. subst tail.
  apply span_sound in Hl as [-> Hall], Hd as [-> Hdig].
  repeat split; try assumption.
  - now rewrite append_empty_r.
  - now apply truthy_true.
Qed.

Lemma match_ref_complete (letters digits : string) :
  letters <> EmptyString ->
  letters_only letters = true ->
  Js.forall_string Js.is_digit digits = true ->
  Js.match_ref (letters ++ digits) = Some (letters, digits).
Proof.
  intros Hne Hl Hd. unfold Js.match_ref.
  rewrite (span_complete Js.is_letter letters digits Hl (digits_stop_letters _ Hd)).
  rewrite <- (append_empty_r digits) at 1.
  rewrite (span_complete Js.is_digit digits EmptyString Hd eq_refl).
  apply truthy_true in Hne. now rewrite Hne.
Qed.

Lemma match_ref_letters (letters : string) :
  letters <> EmptyString -> letters_only letters = true ->
  Js.match_ref letters = Some (letters, EmptyString).
Proof.
  intros Hne Hl.
  rewrite <- (append_empty_r letters) at 1.
  now apply match_ref_complete.
Qed.

Lemma match_ref_iff (s : string) :
  ref_pattern s <-> exists groups, Js.match_ref s = Some groups.
Proof.
  split.
  - intros (l & d & -> & Hne & Hl & Hd). exists (l, d).
    now apply match_ref_complete.
  - intros ([l d] & H). exists l, d. now apply match_ref_sound.
Qed.

Lemma match_ref_none (s : string) :
  ~ ref_pattern s -> Js.match_ref s = None.
Proof.
  intros Hn. destruct (Js.match_ref s) as [groups|] eqn:H; [|reflexivity].
  exfalso. apply Hn, match_ref_iff. now exists groups.
Qed.

(** *** Splitting at a separator *)

Lemma includes_absent (p : ascii -> bool) (sep : ascii) (s : string) :
  (forall c, p c = true -> Ascii.eqb c sep = false) ->
  Js.forall_string p s = true -> Js.includes s sep = false.
Proof.
  intros Hp. induction s as [|c s IH]; simpl; [reflexivity|].
  intros H. apply andb_prop in H as [Hc Hs].
  now rewrite (Hp _ Hc), IH.
Qed.

Lemma includes_app (a b : string) (sep : ascii) :
  Js.includes (a ++ b) sep = Js.includes a sep || Js.includes b sep.
Proof.
  induction a as [|c a IH]; simpl; [reflexivity|].
  now rewrite IH, orb_assoc.
Qed.

Lemma split_absent (sep : ascii) (s : string) :
  Js.includes s sep = false -> Js.split sep s = [s].
Proof.
  induction s as [|c s IH]; simpl; [reflexivity|].
  intros H. apply orb_false_elim in H as [Hc Hs].
  now rewrite Hc, (IH Hs).
Qed.

Lemma split_at_first (sep : ascii) (a b : string) :
  Js.includes a sep = false ->
  Js.split sep (a ++ String sep b) = a :: Js.split sep b.
Proof.
  induction a as [|c a IH]; simpl.
  - intros _. now rewrite Ascii.eqb_refl.
  - intros H. apply orb_false_elim in H as [Hc Ha].
    now rewrite Hc, (IH Ha).
Qed.

(** ** Column addresses: properties *)

Lemma columnLetterToIndex_loop_fold (upper : string) (index : Z) :
  columnLetterToIndex_loop upper index =
  fold_left
    (fun index c => index * 26 + (Js.charCode c - Js.charCode "A"%char + 1))
    (list_ascii_of_string upper) index.
Proof.
  revert index. induction upper as [|c upper IH]; intros index; simpl.
  - reflexivity.
  - rewrite IH. f_equal. change (Js.charCode "A"%char) with 65. lia.
Qed.

(** C4.  For every string of letters A-Z in either case, upper-casing
    leaves only the letters A-Z and [columnLetterToIndex] is the
    specification's fold over the upper-cased string, less 1; the lower-cased
    and the upper-cased forms of the string give the same index as the string
    itself; and the indices of A, Z, AA and AZ are 0, 25, 26 and 51. *)
Theorem columnLetterToIndex_fold_spec (letters : string) :
  letters_only letters = true ->
  Js.forall_string Js.is_upper (Js.toUpperCase letters) = true /\
  columnLetterToIndex letters = toIndex_spec letters /\
  columnLetterToIndex (Js.toLowerCase letters)
    = columnLetterToIndex (Js.toUpperCase letters) /\
  columnLetterToIndex (Js.toLowerCase letters) = columnLetterToIndex letters /\
  columnLetterToIndex "A" = 0 /\
  columnLetterToIndex "Z" = 25 /\
  columnLetterToIndex "AA" = 26 /\
  columnLetterToIndex "AZ" = 51.
Proof.
  intros Hletters. split; [now apply toUpperCase_letters|].
  unfold columnLetterToIndex, toIndex_spec.
  rewrite toUpperCase_toLowerCase, toUpperCase_idempotent.
  rewrite columnLetterToIndex_loop_fold.
  repeat split; reflexivity.
Qed.

Lemma columnLetterToIndex_fold_spec_witness :
  letters_only "az" = true /\
  columnLetterToIndex "az" = toIndex_spec "az" /\
  columnLetterToIndex (Js.toLowerCase "Az") = columnLetterToIndex "Az".
Proof.
  split; [reflexivity|].
  split; [apply (columnLetterToIndex_fold_spec "az"); reflexivity|].
  apply (columnLetterToIndex_fold_spec "Az"); reflexivity.
Defined.

(** C5, as stated, fails: on the empty string and on a string with a
    character outside A-Z [columnLetterToIndex] does not fail; it returns
    -1 and -16. *)
Lemma columnLetterToIndex_fails_counterexample :
  ~ (forall letters : string,
       letters = EmptyString \/ letters_only letters = false ->
       fails (call columnLetterToIndex letters)) /\
  call columnLetterToIndex EmptyString = Returned (-1) /\
  call columnLetterToIndex "1" = Returned (-16).
Proof.
  split; [|split; reflexivity].
  intros H. destruct (H EmptyString (or_introl eq_refl)) as [e He].
  discriminate He.
Qed.

(** C5, amended.  For every string that is empty or has a character outside
    A-Z, [columnLetterToIndex] itself does not fail and returns a number;
    such a string is rejected before it is reached: [ColumnRefSchema] does
    not accept it as a column reference, and the pattern of [parseA1Range]
    never yields it as the letters of a cell reference. *)
Theorem columnLetterToIndex_validated_by_callers (letters : string) :
  letters = EmptyString \/ letters_only letters = false ->
  (exists index : Z, call columnLetterToIndex letters = Returned index) /\
  ~ fails (call columnLetterToIndex letters) /\
  ColumnRefSchema (ColLetters letters) = false /\
  (forall ref digits : string, Js.match_ref ref <> Some (letters, digits)).
Proof.
  intros Hbad. split; [now eexists|]. split.
  - intros [e He]. discriminate He.
  - split.
    + simpl. destruct Hbad as [-> | Hbad]; [reflexivity|].
      unfold letters_only in Hbad. rewrite Hbad. apply andb_false_r.
    + intros ref digits Hm. apply match_ref_sound in Hm as (_ & Hne & Hl & _).
      destruct Hbad as [-> | Hbad]; congruence.
Qed.

Lemma columnLetterToIndex_validated_by_callers_witness :
  (exists index : Z, call columnLetterToIndex "A1" = Returned index) /\
  ColumnRefSchema (ColLetters "A1") = false.
Proof.
  assert (H : "A1" = EmptyString \/ letters_only "A1" = false)
    by (right; reflexivity).
  split.
  - exact (proj1 (columnLetterToIndex_validated_by_callers "A1" H)).
  - exact (proj1 (proj2 (proj2 (columnLetterToIndex_validated_by_callers "A1" H)))).
Defined.

(** ** A1 ranges: properties *)

Lemma splitSheet_no_bang (range : string) :
  Js.includes range "!" = false -> splitSheet range = (EmptyString, range).
Proof. unfold splitSheet. now intros ->. Qed.

(** C6.  A pure column range, two non-empty strings of letters around a
    colon, parses to an unnamed sheet with start row 0 and end row 1000;
    in particular the range A:E parses to columns 0 to 5 (exclusive) and
    rows 0 to 1000. *)
Theorem parse_column_range_sentinel (startLetters endLetters : string) :
  startLetters <> EmptyString -> letters_only startLetters = true ->
  endLetters <> EmptyString -> letters_only endLetters = true ->
  parseA1Range (startLetters ++ ":" ++ endLetters) =
    Returned
      {| sheetName := EmptyString;
         startCol := columnLetterToIndex startLetters;
         startRow := 0;
         endCol := columnLetterToIndex endLetters + 1;
         endRow := 1000 |} /\
  parseA1Range "A:E" =
    Returned
      {| sheetName := EmptyString;
         startCol := 0; startRow := 0; endCol := 5; endRow := 1000 |}.
Proof.
  intros Hs Hsl He Hel. split; [|reflexivity]. unfold parseA1Range.
  assert (Hcs : Js.includes startLetters ":" = false)
    by (apply (includes_absent _ _ _ letter_not_colon Hsl)).
  assert (Hce : Js.includes endLetters ":" = false)
    by (apply (includes_absent _ _ _ letter_not_colon Hel)).
  rewrite splitSheet_no_bang.
  2:{ rewrite includes_app. simpl.
      rewrite (includes_absent _ _ _ letter_not_bang Hsl).
      now rewrite (includes_absent _ _ _ letter_not_bang Hel). }
  unfold startRefOf, endRefOf. simpl append.
  rewrite (split_at_first _ _ _ Hcs), (split_absent _ _ Hce). simpl.
  apply truthy_true in He as Hte. rewrite Hte.
  rewrite (match_ref_letters _ Hs Hsl), (match_ref_letters _ He Hel).
  reflexivity.
Qed.

Lemma parse_column_range_sentinel_witness :
  parseA1Range ("B" ++ ":" ++ "AA") =
  Returned
    {| sheetName := EmptyString;
       startCol := columnLetterToIndex "B"; startRow := 0;
       endCol := columnLetterToIndex "AA" + 1; endRow := 1000 |}.
Proof.
  apply (parse_column_range_sentinel "B" "AA");
    solve [discriminate | reflexivity].
Defined.

Lemma refs_of_colon_range (startRef endRef : string) :
  Js.includes startRef ":" = false -> Js.includes endRef ":" = false ->
  endRef <> EmptyString ->
  startRefOf (startRef ++ ":" ++ endRef) = startRef /\
  endRefOf (startRef ++ ":" ++ endRef) = endRef.
Proof.
  intros Hs He Hne. unfold startRefOf, endRefOf. simpl append.
  rewrite (split_at_first _ _ _ Hs), (split_absent _ _ He). simpl.
  apply truthy_true in Hne. now rewrite Hne.
Qed.

(** C7, as stated, fails.  In the range A1: the reference after the colon
    is empty and does not follow the grammar, yet the parse returns the
    single cell A1; in A1:B2:C3 the text after the first colon does not
    follow it either, yet the parse returns the range A1:B2. *)
Lemma parse_bad_reference_counterexample :
  ~ (forall range : string,
       ~ ref_pattern (spec_startRef range) \/
       ~ ref_pattern (spec_endRef range) ->
       fails (parseA1Range range)) /\
  spec_endRef "A1:" = EmptyString /\
  parseA1Range "A1:" =
    Returned
      {| sheetName := EmptyString;
         startCol := 0; startRow := 0; endCol := 1; endRow := 1 |} /\
  spec_endRef "A1:B2:C3" = "B2:C3" /\
  parseA1Range "A1:B2:C3" =
    Returned
      {| sheetName := EmptyString;
         startCol := 0; startRow := 0; endCol := 2; endRow := 2 |}.
Proof.
  split; [|repeat split].
  intros H. destruct (H "A1:") as [e He]; [|discriminate He].
  right. intros Hp. apply match_ref_iff in Hp as [groups Hg]. discriminate Hg.
Qed.

(** An unmatched reference is rejected with the invalid-format error. *)
Lemma parseA1Range_unmatched (range : string) :
  ~ ref_pattern (startRefOf (rangeOnlyOf range)) \/
  ~ ref_pattern (endRefOf (rangeOnlyOf range)) ->
  parseA1Range range = Thrown (InvalidFormat range).
Proof.
  intros Hbad.
  unfold parseA1Range, rangeOnlyOf in *.
  destruct (splitSheet range) as [name rangeOnly]; simpl in Hbad.
  destruct Hbad as [Hbad | Hbad]; apply match_ref_none in Hbad; rewrite Hbad.
  - reflexivity.
  - now destruct (Js.match_ref (startRefOf rangeOnly)) as [[? ?]|].
Qed.

(** ** Pivot values: properties *)

(** C2, as stated, fails: [buildPivotValue] returns a value both for an
    input with a source column and a formula (the column is kept, the
    formula dropped) and for an input with neither (neither is emitted). *)
Lemma buildPivotValue_fails_counterexample :
  ~ fails (call buildPivotValue value_with_both) /\
  ~ fails (call buildPivotValue value_with_neither) /\
  buildPivotValue value_with_both =
    {| summarizeFunction := SUM; pv_sourceColumnOffset := Some 4;
       formula := None; name := None; calculatedDisplayType := None |} /\
  buildPivotValue value_with_neither =
    {| summarizeFunction := SUM; pv_sourceColumnOffset := None;
       formula := None; name := None; calculatedDisplayType := None |}.
Proof.
  repeat split; try reflexivity; intros [e He]; discriminate He.
Qed.

(** C2, amended.  The exactly-one-of rule on the source column and the
    formula is checked by the refinements of [PivotValueSchema], which
    raise one issue when both are present and one when neither is, and none
    otherwise.  [buildPivotValue] does not check it again and never fails:
    with a source column it emits the resolved offset and no formula;
    without one it emits no offset, and the formula when that is a
    non-empty string. *)
Theorem buildPivotValue_relies_on_schema (val : PivotValueInput) :
  PivotValueSchema_refinements val =
    match pv_source_column val, pv_formula val with
    | Some _, Some _ => ["Cannot specify both source_column and formula"]
    | None, None => ["Either source_column or formula is required"]
    | _, _ => []
    end /\
  ~ fails (call buildPivotValue val) /\
  match pv_source_column val with
  | Some column =>
      pv_sourceColumnOffset (buildPivotValue val)
        = Some (resolveColumnIndex column) /\
      formula (buildPivotValue val) = None
  | None =>
      pv_sourceColumnOffset (buildPivotValue val) = None /\
      formula (buildPivotValue val) = truthy_string (pv_formula val)
  end.
Proof.
  destruct val as [column f fn nm display].
  unfold PivotValueSchema_refinements, buildPivotValue; simpl.
  split; [destruct column, f; reflexivity|].
  split; [intros [e He]; discriminate He|].
  destruct column; split; reflexivity.
Qed.

(** ** Pivot groups: properties *)

(** C8.  [buildPivotGroup] returns a group unless the group rule has none
    of its three keys.  In the group it returns: with a sort-by-value the
    value bucket refers to its value index and the sort order is the
    input's, set or not; with a sort order alone the value bucket is the
    empty object and the sort order is set; with neither there is no value
    bucket and no sort order. *)
Theorem buildPivotGroup_sort_precedence
  (number : Type) (group : PivotGroupInput number) :
  match buildPivotGroup group with
  | Returned pivotGroup =>
      match sort_by_value group, sort_order group with
      | Some sbv, order =>
          valueBucket pivotGroup
            = Some {| valuesIndex := Some (value_index sbv) |} /\
          sortOrder pivotGroup = order
      | None, Some order =>
          valueBucket pivotGroup = Some {| valuesIndex := None |} /\
          sortOrder pivotGroup = Some order
      | None, None =>
          valueBucket pivotGroup = None /\ sortOrder pivotGroup = None
      end
  | Thrown e =>
      e = InvalidGroupRule /\
      exists rule,
        group_rule group = Some rule /\
        date_time rule = None /\ histogram rule = None /\
        manual rule = None
  end.
Proof.
  destruct group as [column lbl totals order sbv rule limit].
  unfold buildPivotGroup; simpl.
  destruct rule as [[[dt|] [h|] [m|]]|]; simpl;
    try (destruct sbv, order; split; reflexivity).
  split; [reflexivity|]. eexists; repeat split; reflexivity.
Qed.

(** ** Pivot filters: properties *)

(** C10.  [buildPivotFilters] never fails, and each filter it compiles
    holds a filter-criteria object: with visible values, and whether or not
    a condition comes with them, the criteria hold the visible values and no
    condition; with a condition alone they hold the compiled condition; with
    neither they are the empty object. *)
Theorem buildPivotFilters_defaulting
  (number : Type) (numberToString : number -> string)
  (filters : list (PivotFilterInput number)) :
  ~ fails (call (buildPivotFilters numberToString) filters) /\
  Forall2 filter_compiled filters (buildPivotFilters numberToString filters).
Proof.
  split; [intros [e He]; discriminate He|].
  induction filters as [|filter filters IH]; simpl; constructor; [|exact IH].
  unfold filter_compiled; simpl. eexists; split; [reflexivity|].
  destruct (visible_values filter) as [allowed|]; [reflexivity|].
  destruct (condition filter) as [c|]; [|reflexivity].
  split; [reflexivity|]. eexists; split; reflexivity.
Qed.

(** ** Sheet resolution and the handler: properties *)

Lemma find_no_sheet_titled (sheetName : string) (l : list Sheet) :
  no_sheet_titled sheetName l -> find (has_title sheetName) l = None.
Proof.
  induction 1 as [|s l Hs _ IH]; simpl; [reflexivity|]. now rewrite Hs.
Qed.

Lemma sourceSheetId_log {number : Type} (client : SheetsClient number)
  (params : CreatePivotTableInput number) (parsedRange : RangeSpec)
  (log : list (Call number)) :
  snd (sourceSheetId client params parsedRange log) =
  (log ++ [Get (spreadsheet_id params) metadata_fields])%list.
Proof.
  unfold sourceSheetId, getSheetIdByName, bind, spreadsheets_get, ret, throw.
  destruct (Js.truthy (sheetName parsedRange));
    destruct (answer_get client log _ _) as [data|e]; simpl; try reflexivity.
  destruct (sheetId_of _) as [id|]; [|reflexivity].
  now destruct (id =? 0).
Qed.

(** C3, as stated, fails: for an unnamed sheet and a spreadsheet without
    sheets, the resolution returns 0 and does not fail. *)
Lemma sourceSheetId_no_sheets_counterexample :
  sheetName unnamed_range = EmptyString /\
  answer_get empty_client [] "s1" metadata_fields
    = Returned {| sheets := Some [] |} /\
  fst (sourceSheetId empty_client (sales_spec "s1" None) unnamed_range [])
    = Returned 0 /\
  ~ fails (fst (sourceSheetId empty_client (sales_spec "s1" None)
                  unnamed_range [])).
Proof.
  repeat split. intros [e He]. discriminate He.
Qed.

(** C3, amended.  When the service answers the metadata query: for a
    non-empty sheet name the resolution fails with the not-found error if
    no sheet has that title, and returns the identifier of the first sheet
    with that title if that identifier is not 0; for an empty sheet name it
    returns the identifier of the first sheet, and returns 0, without
    failing, if the spreadsheet has no sheets. *)
Theorem sourceSheetId_resolution {number : Type}
  (client : SheetsClient number) (params : CreatePivotTableInput number)
  (parsedRange : RangeSpec) (log : list (Call number)) (data : Spreadsheet) :
  answer_get client log (spreadsheet_id params) metadata_fields
    = Returned data ->
  let name := sheetName parsedRange in
  let result := fst (sourceSheetId client params parsedRange log) in
  (name <> EmptyString -> no_sheet_titled name (sheets_or_empty data) ->
   result = Thrown (NotFound name)) /\
  (name <> EmptyString ->
   forall id : Z,
     sheetId_of (find (has_title name) (sheets_or_empty data)) = Some id ->
     id <> 0 -> result = Returned id) /\
  (name = EmptyString ->
   forall id : Z,
     sheetId_of (nth_error (sheets_or_empty data) 0) = Some id ->
     result = Returned id) /\
  (name = EmptyString -> sheets_or_empty data = [] -> result = Returned 0).
Proof.
  intros Hget name result. subst name result.
  unfold metadata_fields in Hget.
  unfold sourceSheetId, getSheetIdByName, bind, spreadsheets_get, ret, throw.
  repeat split.
  - intros Hname Hnone. apply truthy_true in Hname. rewrite Hname, Hget.
    now rewrite (find_no_sheet_titled _ _ Hnone).
  - intros Hname id Hid Hnz. apply truthy_true in Hname.
    rewrite Hname, Hget, Hid. apply Z.eqb_neq in Hnz. now rewrite Hnz.
  - intros Hname id Hid. apply truthy_false in Hname.
    rewrite Hname, Hget. cbv beta iota delta [fst]. now rewrite Hid.
  - intros Hname Hempty. apply truthy_false in Hname.
    rewrite Hname, Hget. cbv beta iota delta [fst]. now rewrite Hempty.
Qed.

Lemma sourceSheetId_resolution_witness :
  fst (sourceSheetId sales_client (sales_spec "s1" None) sales_range [])
    = Returned 3 /\
  fst (sourceSheetId sales_client (sales_spec "s1" None) unnamed_range [])
    = Returned 0 /\
  fst (sourceSheetId empty_client (sales_spec "s1" None) sales_range [])
    = Thrown (NotFound "Sales") /\
  fst (sourceSheetId empty_client (sales_spec "s1" None) unnamed_range [])
    = Returned 0.
Proof.
  split; [|split; [|split]].
  - destruct (sourceSheetId_resolution sales_client (sales_spec "s1" None)
                sales_range [] _ eq_refl) as (_ & Hfound & _).
    apply Hfound; [discriminate | reflexivity | discriminate].
  - destruct (sourceSheetId_resolution sales_client (sales_spec "s1" None)
                unnamed_range [] _ eq_refl) as (_ & _ & Hfirst & _).
    apply Hfirst; reflexivity.
  - destruct (sourceSheetId_resolution empty_client (sales_spec "s1" None)
                sales_range [] _ eq_refl) as (Hmissing & _).
    apply Hmissing; [discriminate | constructor].
  - destruct (sourceSheetId_resolution empty_client (sales_spec "s1" None)
                unnamed_range [] _ eq_refl) as (_ & _ & _ & Hnone).
    apply Hnone; reflexivity.
Defined.

(** The test of the identifier found by name is a truthiness test: the
    sheet Summary, whose identifier is 0, is reported as not found. *)
Lemma getSheetIdByName_zero_identifier :
  fst (sourceSheetId sales_client (sales_spec "s1" None) summary_range [])
    = Thrown (NotFound "Summary").
Proof. reflexivity. Qed.

Lemma parse_sales : parseA1Range "Sales!A1:E100" = Returned sales_range.
Proof. reflexivity. Qed.

(** C1.  For the example specification (source range Sales!A1:E100, one row
    group on column A, one SUM value on column E) and a service whose
    metadata gives the sheet titled Sales the identifier 3, once the
    destination sheet is known the handler sends an [updateCells] request
    whose pivot table has the source region of sheet 3, rows 0 to 100 and
    columns 0 to 5, and whose first row group has the column offset 0. *)
Theorem createPivotTable_sales_example {number : Type}
  (numberToString : number -> string) (client : SheetsClient number)
  (spreadsheetId : string) (destination : option Z)
  (log : list (Call number)) (data : Spreadsheet) (dest : Z * string) :
  answer_get client log spreadsheetId metadata_fields = Returned data ->
  sheetId_of (find (has_title "Sales") (sheets_or_empty data)) = Some 3 ->
  fst (destinationSheet client (sales_spec spreadsheetId destination)
         (log ++ [Get spreadsheetId metadata_fields])%list)
    = Returned dest ->
  exists (pivotTable : PivotTable number) (group : PivotGroup number)
         (groups : list (PivotGroup number)),
    In (BatchUpdate spreadsheetId [updateCellsRequest pivotTable (fst dest)])
       (snd (createPivotTable numberToString (Returned client)
               (sales_spec spreadsheetId destination) log)) /\
    source pivotTable =
      {| gr_sheetId := 3;
         startRowIndex := 0; startColumnIndex := 0;
         endRowIndex := 100; endColumnIndex := 5 |} /\
    pt_rows pivotTable = Some (group :: groups) /\
    sourceColumnOffset group = 0.
Proof.
  intros Hget Hsales Hdest. unfold metadata_fields in *.
  unfold createPivotTable, bind at 1 2 3, lift.
  change (source_range (sales_spec spreadsheetId destination))
    with "Sales!A1:E100".
  rewrite parse_sales.
  unfold sourceSheetId at 1. change (Js.truthy (sheetName sales_range)) with true.
  unfold getSheetIdByName, bind at 1, spreadsheets_get at 1.
  change (spreadsheet_id (sales_spec spreadsheetId destination))
    with spreadsheetId in *.
  rewrite Hget. change (sheetName sales_range) with "Sales".
  rewrite Hsales. change (3 =? 0) with false. cbv beta iota.
  unfold ret at 1, bind at 1.
  destruct (destinationSheet client (sales_spec spreadsheetId destination) _)
    as [o log'] eqn:Hd.
  simpl in Hdest. subst o.
  unfold bind, lift, spreadsheets_batchUpdate, ret.
  change (spreadsheet_id (sales_spec spreadsheetId destination))
    with spreadsheetId in *.
  match goal with
  | |- context [buildPivotTable ?ns ?p ?i ?r] =>
      set (built := buildPivotTable ns p i r)
  end.
  vm_compute in built. subst built. cbv beta iota.
  do 3 eexists. split; [|split; [|split]].
  - destruct (answer_batchUpdate client log' spreadsheetId _);
      cbv beta iota delta [snd]; apply in_or_app; right; left; reflexivity.
  - reflexivity.
  - reflexivity.
  - reflexivity.
Qed.

Lemma createPivotTable_sales_example_witness :
  exists (pivotTable : PivotTable no_number),
    In (BatchUpdate "s1" [updateCellsRequest pivotTable 7])
       (snd (createPivotTable no_number_string (Returned sales_client)
               (sales_spec "s1" None) [])) /\
    gr_sheetId (source pivotTable) = 3.
Proof.
  destruct (createPivotTable_sales_example no_number_string sales_client
              "s1" None [] _ (7, "Pivot Table") eq_refl eq_refl eq_refl)
    as (pivotTable & group & groups & Hsent & Hsource & _).
  exists pivotTable. split; [exact Hsent|]. now rewrite Hsource.
Defined.

(** ** No mutation before the source is resolved *)

Lemma createPivotTable_parse_fails {number : Type}
  (numberToString : number -> string)
  (getSheetsClient : Outcome (SheetsClient number))
  (params : CreatePivotTableInput number) (log : list (Call number))
  (e : string) :
  parseA1Range (source_range params) = Thrown e ->
  exists e',
    createPivotTable numberToString getSheetsClient params log
      = (Thrown e', log).
Proof.
  intros He. unfold createPivotTable, bind at 1 2, lift.
  destruct getSheetsClient as [client|e']; [rewrite He|]; now eexists.
Qed.

Lemma createPivotTable_resolution_fails {number : Type}
  (numberToString : number -> string)
  (getSheetsClient : Outcome (SheetsClient number))
  (params : CreatePivotTableInput number) (log : list (Call number))
  (client : SheetsClient number) (parsedRange : RangeSpec) (e : string) :
  getSheetsClient = Returned client ->
  parseA1Range (source_range params) = Returned parsedRange ->
  fst (sourceSheetId client params parsedRange log) = Thrown e ->
  createPivotTable numberToString getSheetsClient params log
    = (Thrown e, (log ++ [Get (spreadsheet_id params) metadata_fields])%list).
Proof.
  intros Hclient Hparse He. unfold createPivotTable, bind at 1 2, lift.
  rewrite Hclient, Hparse. unfold bind at 1.
  pose proof (sourceSheetId_log client params parsedRange log) as Hlog.
  destruct (sourceSheetId client params parsedRange log) as [o log'].
  simpl in He, Hlog. now subst o log'.
Qed.

(** C9.  When the parse of the source range fails, or the resolution of the
    source sheet fails, the handler ends with that failure and the calls it
    has made contain no [batchUpdate] beyond those already in the log: no
    sheet is added and no cell is updated. *)
Theorem createPivotTable_aborts_before_mutation {number : Type}
  (numberToString : number -> string)
  (getSheetsClient : Outcome (SheetsClient number))
  (params : CreatePivotTableInput number) (log : list (Call number)) :
  parse_fails params \/ resolution_fails getSheetsClient params log ->
  fails (fst (createPivotTable numberToString getSheetsClient params log)) /\
  filter is_mutation
    (snd (createPivotTable numberToString getSheetsClient params log))
    = filter is_mutation log.
Proof.
  intros [[e He] | (client & parsedRange & Hclient & Hparse & [e He])].
  - destruct (createPivotTable_parse_fails numberToString getSheetsClient
                params log e He) as [e' ->].
    split; [now eexists | reflexivity].
  - rewrite (createPivotTable_resolution_fails numberToString getSheetsClient
               params log client parsedRange e Hclient Hparse He).
    split; [now eexists|].
    cbv beta iota delta [snd]. rewrite filter_app. simpl. apply app_nil_r.
Qed.

Lemma createPivotTable_aborts_before_mutation_witness :
  filter is_mutation
    (snd (createPivotTable no_number_string (Returned empty_client)
            (sales_spec "s1" None) []))
  = [].
Proof.
  apply (createPivotTable_aborts_before_mutation no_number_string
           (Returned empty_client) (sales_spec "s1" None) []).
  right. exists empty_client, sales_range.
  split; [reflexivity|]. split; [reflexivity|].
  exists (NotFound "Sales"). reflexivity.
Defined.

(** ** Column addresses: the numbering *)

Lemma pow26_succ (k : Z) : 0 <= k -> 26 ^ (k + 1) = 26 * 26 ^ k.
Proof. intros Hk. rewrite Z.pow_add_r by lia. lia. Qed.

Lemma columnLetterToIndex_loop_shift (upper : string) (index : Z) :
  columnLetterToIndex_loop upper index
  = index * 26 ^ Z.of_nat (String.length upper)
    + columnLetterToIndex_loop upper 0.
Proof.
  revert index. induction upper as [|c upper IH]; intros index.
  - simpl. lia.
  - cbn [columnLetterToIndex_loop String.length].
    rewrite IH, (IH (0 * 26 + (Js.charCode c - 64))).
    rewrite Nat2Z.inj_succ, <- Z.add_1_r, pow26_succ by lia. ring.
Qed.

Lemma upper_digit (c : ascii) :
  Js.is_upper c = true -> 1 <= Js.charCode c - 64 <= 26.
Proof.
  unfold Js.is_upper, Js.in_range. intros H.
  apply andb_prop in H as [Hlo Hhi]. lia.
Qed.

Lemma columnLetterToIndex_loop_bounds (upper : string) :
  Js.forall_string Js.is_upper upper = true ->
  26 ^ Z.of_nat (String.length upper) - 1
    <= 25 * columnLetterToIndex_loop upper 0
    <= 26 ^ (Z.of_nat (String.length upper) + 1) - 26.
Proof.
  induction upper as [|c upper IH]; intros Hall.
  - simpl. lia.
  - cbn [Js.forall_string] in Hall. apply andb_prop in Hall as [Hc Hrest].
    specialize (IH Hrest). apply upper_digit in Hc.
    cbn [columnLetterToIndex_loop String.length].
    rewrite columnLetterToIndex_loop_shift.
    rewrite Nat2Z.inj_succ, <- Z.add_1_r.
    rewrite pow26_succ in IH by lia.
    rewrite !pow26_succ by lia.
    set (p := 26 ^ Z.of_nat (String.length upper)) in *.
    assert (Hp : 0 < p) by (apply Z.pow_pos_nonneg; lia).
    set (d := Js.charCode c - 64) in *.
    replace (0 * 26 + d) with d by lia.
    assert (Hlo : p <= d * p) by nia.
    assert (Hhi : d * p <= 26 * p) by nia.
    lia.
Qed.

Lemma map_string_length (f : ascii -> ascii) (s : string) :
  String.length (Js.map_string f s) = String.length s.
Proof. induction s as [|c s IH]; simpl; [reflexivity | now rewrite IH]. Qed.

Lemma toUpperCase_length (s : string) :
  String.length (Js.toUpperCase s) = String.length s.
Proof. apply map_string_length. Qed.

Lemma columnLetterToIndex_bounds (letters : string) :
  letters_only letters = true ->
  26 ^ Z.of_nat (String.length letters) - 1
    <= 25 * (columnLetterToIndex letters + 1)
    <= 26 ^ (Z.of_nat (String.length letters) + 1) - 26.
Proof.
  intros Hl.
  pose proof (columnLetterToIndex_loop_bounds _ (toUpperCase_letters _ Hl)) as Hb.
  rewrite toUpperCase_length in Hb. unfold columnLetterToIndex.
  replace (columnLetterToIndex_loop (Js.toUpperCase letters) 0 - 1 + 1)
    with (columnLetterToIndex_loop (Js.toUpperCase letters) 0) by lia.
  exact Hb.
Qed.

Lemma columnLetterToIndex_nonneg (letters : string) :
  letters <> EmptyString -> letters_only letters = true ->
  0 <= columnLetterToIndex letters.
Proof.
  intros Hne Hl. pose proof (columnLetterToIndex_bounds letters Hl) as Hb.
  destruct letters as [|c rest]; [congruence|].
  cbn [String.length] in Hb.
  rewrite Nat2Z.inj_succ, <- Z.add_1_r in Hb.
  rewrite (pow26_succ (Z.of_nat (String.length rest))) in Hb by lia.
  assert (0 < 26 ^ Z.of_nat (String.length rest))
    by (apply Z.pow_pos_nonneg; lia).
  lia.
Qed.

(** X1.  The index of a string of [n] letters, [n] at most 11, lies in
    the block of the columns with [n] letters: from (26^n - 1)/25 - 1 to
    26 (26^n - 1)/25 - 1; so a non-empty string of letters never has a
    negative index; and the index plus 1 is below 2^53, so that the code
    computes it exactly. *)
Theorem columnLetterToIndex_block (letters : string) :
  letters_only letters = true ->
  exact_letters letters ->
  let n := Z.of_nat (String.length letters) in
  26 ^ n - 1 <= 25 * (columnLetterToIndex letters + 1) <= 26 ^ (n + 1) - 26 /\
  (letters <> EmptyString -> 0 <= columnLetterToIndex letters) /\
  columnLetterToIndex letters + 1 < 2 ^ 53.
Proof.
  intros Hl Hexact n.
  pose proof (columnLetterToIndex_bounds letters Hl) as Hb. fold n in Hb.
  split; [exact Hb|]. split.
  - intros Hne. now apply columnLetterToIndex_nonneg.
  - unfold exact_letters in Hexact.
    assert (Hpow : 26 ^ (n + 1) <= 26 ^ 12)
      by (apply Z.pow_le_mono_r; subst n; lia).
    assert (H12 : 26 ^ 12 = 95428956661682176) by reflexivity.
    assert (H53 : 2 ^ 53 = 9007199254740992) by reflexivity.
    lia.
Qed.

Lemma columnLetterToIndex_block_witness :
  26 ^ 2 - 1 <= 25 * (columnLetterToIndex "zz" + 1) <= 26 ^ 3 - 26 /\
  columnLetterToIndex "ZZZZZZZZZZZ" + 1 < 2 ^ 53.
Proof.
  split.
  - refine (proj1 (columnLetterToIndex_block "zz" eq_refl _)).
    unfold exact_letters. simpl. lia.
  - refine (proj2 (proj2 (columnLetterToIndex_block "ZZZZZZZZZZZ" eq_refl _))).
    unfold exact_letters. simpl. lia.
Defined.

Lemma charCode_inj (c d : ascii) : Js.charCode c = Js.charCode d -> c = d.
Proof.
  unfold Js.charCode. intros H. apply N2Z.inj in H.
  rewrite <- (ascii_N_embedding c), <- (ascii_N_embedding d). now rewrite H.
Qed.

Lemma columnLetterToIndex_loop_inj (s t : string) :
  Js.forall_string Js.is_upper s = true ->
  Js.forall_string Js.is_upper t = true ->
  String.length s = String.length t ->
  columnLetterToIndex_loop s 0 = columnLetterToIndex_loop t 0 ->
  s = t.
Proof.
  revert t. induction s as [|c s IH]; intros [|d t] Hs Ht Hlen Heq;
    try discriminate; [reflexivity|].
  cbn [Js.forall_string] in Hs, Ht.
  apply andb_prop in Hs as [Hc Hs], Ht as [Hd Ht].
  cbn [String.length] in Hlen. injection Hlen as Hlen.
  cbn [columnLetterToIndex_loop] in Heq.
  rewrite (columnLetterToIndex_loop_shift s), (columnLetterToIndex_loop_shift t)
    in Heq.
  pose proof (columnLetterToIndex_loop_bounds s Hs) as Bs.
  pose proof (columnLetterToIndex_loop_bounds t Ht) as Bt.
  rewrite <- Hlen in Heq, Bt.
  rewrite pow26_succ in Bs, Bt by lia.
  set (p := 26 ^ Z.of_nat (String.length s)) in *.
  assert (Hp : 0 < p) by (apply Z.pow_pos_nonneg; lia).
  apply upper_digit in Hc as Bc. apply upper_digit in Hd as Bd.
  set (x := Js.charCode c - 64) in *. set (y := Js.charCode d - 64) in *.
  replace (0 * 26 + x) with x in Heq by lia.
  replace (0 * 26 + y) with y in Heq by lia.
  assert (Hxy : x = y) by nia.
  assert (c = d) by (apply charCode_inj; subst x y; lia).
  subst d. f_equal. apply IH; try assumption.
  rewrite Hxy in Heq. lia.
Qed.

(** X2.  Two strings of at most 11 letters with the same index are the
    same column: they are equal up to the case of their letters. *)
Theorem columnLetterToIndex_injective (s t : string) :
  letters_only s = true -> letters_only t = true ->
  exact_letters s -> exact_letters t ->
  columnLetterToIndex s = columnLetterToIndex t ->
  Js.toUpperCase s = Js.toUpperCase t.
Proof.
  intros Hs Ht _ _ Heq.
  pose proof (toUpperCase_letters _ Hs) as Us.
  pose proof (toUpperCase_letters _ Ht) as Ut.
  unfold columnLetterToIndex in Heq.
  assert (Hv : columnLetterToIndex_loop (Js.toUpperCase s) 0
               = columnLetterToIndex_loop (Js.toUpperCase t) 0) by lia.
  apply columnLetterToIndex_loop_inj; try assumption.
  pose proof (columnLetterToIndex_loop_bounds _ Us) as Bs.
  pose proof (columnLetterToIndex_loop_bounds _ Ut) as Bt.
  rewrite Hv in Bs.
  set (m := String.length (Js.toUpperCase s)) in *.
  set (n := String.length (Js.toUpperCase t)) in *.
  destruct (Nat.lt_trichotomy m n) as [Hlt | [Heq' | Hgt]]; [|exact Heq'|].
  - exfalso.
    assert (26 ^ (Z.of_nat m + 1) <= 26 ^ Z.of_nat n)
      by (apply Z.pow_le_mono_r; lia).
    lia.
  - exfalso.
    assert (26 ^ (Z.of_nat n + 1) <= 26 ^ Z.of_nat m)
      by (apply Z.pow_le_mono_r; lia).
    lia.
Qed.

Lemma columnLetterToIndex_injective_witness :
  Js.toUpperCase "ab" = Js.toUpperCase "AB".
Proof.
  apply (columnLetterToIndex_injective "ab" "AB");
    solve [reflexivity | unfold exact_letters; simpl; lia].
Defined.

(** X3.  A column reference accepted by [ColumnRefSchema] resolves to a
    non-negative offset. *)
Theorem resolveColumnIndex_nonneg (column : ColumnRef) :
  ColumnRefSchema column = true -> 0 <= resolveColumnIndex column.
Proof.
  destruct column as [n | s]; simpl; intros H.
  - lia.
  - apply andb_prop in H as [Hne Hl]. apply truthy_true in Hne.
    now apply columnLetterToIndex_nonneg.
Qed.

Lemma resolveColumnIndex_nonneg_witness :
  0 <= resolveColumnIndex (ColLetters "aa").
Proof.
  apply (resolveColumnIndex_nonneg (ColLetters "aa")). reflexivity.
Defined.

(** ** A1 ranges: what a parse returns *)

Lemma digit_not_colon (c : ascii) :
  Js.is_digit c = true -> Ascii.eqb c ":" = false.
Proof. ascii_cases c. Qed.

Lemma digit_not_bang (c : ascii) :
  Js.is_digit c = true -> Ascii.eqb c "!" = false.
Proof. ascii_cases c. Qed.

Lemma append_assoc (a b c : string) : (a ++ b) ++ c = a ++ b ++ c.
Proof. induction a as [|x a IH]; simpl; [reflexivity | now rewrite IH]. Qed.

Lemma parseInt_loop_nonneg (digits : string) (acc : Z) :
  Js.forall_string Js.is_digit digits = true -> 0 <= acc ->
  0 <= Js.parseInt_loop digits acc.
Proof.
  revert acc. induction digits as [|c digits IH]; simpl; intros acc Hd Hacc.
  - exact Hacc.
  - apply andb_prop in Hd as [Hc Hd]. apply IH; [exact Hd|].
    unfold Js.is_digit, Js.in_range in Hc. apply andb_prop in Hc as [Hlo Hhi].
    lia.
Qed.

(** The two references match, and the range is read off their groups. *)
Lemma parseA1Range_returned (range : string) (r : RangeSpec) :
  parseA1Range range = Returned r ->
  exists startLetters startDigits endLetters endDigits,
    Js.match_ref (startRefOf (rangeOnlyOf range))
      = Some (startLetters, startDigits) /\
    Js.match_ref (endRefOf (rangeOnlyOf range))
      = Some (endLetters, endDigits) /\
    r = {| sheetName := fst (splitSheet range);
           startCol := columnLetterToIndex startLetters;
           startRow :=
             if Js.truthy startDigits then Js.parseInt startDigits - 1 else 0;
           endCol := columnLetterToIndex endLetters + 1;
           endRow :=
             if Js.truthy endDigits then Js.parseInt endDigits else 1000 |}.
Proof.
  unfold parseA1Range, rangeOnlyOf.
  destruct (splitSheet range) as [name rangeOnly]; cbn [fst snd].
  destruct (Js.match_ref (startRefOf rangeOnly)) as [[l1 d1]|]; [|discriminate].
  destruct (Js.match_ref (endRefOf rangeOnly)) as [[l2 d2]|]; [|discriminate].
  intros H. injection H as <-. now exists l1, d1, l2, d2.
Qed.

Lemma parseA1Range_matched (range startLetters startDigits endLetters
  endDigits : string) :
  Js.match_ref (startRefOf (rangeOnlyOf range))
    = Some (startLetters, startDigits) ->
  Js.match_ref (endRefOf (rangeOnlyOf range)) = Some (endLetters, endDigits) ->
  parseA1Range range =
  Returned
    {| sheetName := fst (splitSheet range);
       startCol := columnLetterToIndex startLetters;
       startRow :=
         if Js.truthy startDigits then Js.parseInt startDigits - 1 else 0;
       endCol := columnLetterToIndex endLetters + 1;
       endRow := if Js.truthy endDigits then Js.parseInt endDigits else 1000 |}.
Proof.
  unfold parseA1Range, rangeOnlyOf.
  destruct (splitSheet range) as [name rangeOnly]; cbn [fst snd].
  now intros -> ->.
Qed.

(** X4.  [parseA1Range] returns a range exactly when its start reference
    and its end reference both follow the grammar of a cell reference, and
    its only failure is the invalid-format error that quotes the whole
    range string. *)
Theorem parseA1Range_returns_iff (range : string) :
  ((exists r, parseA1Range range = Returned r) <->
   ref_pattern (startRefOf (rangeOnlyOf range)) /\
   ref_pattern (endRefOf (rangeOnlyOf range))) /\
  (forall e, parseA1Range range = Thrown e -> e = InvalidFormat range).
Proof.
  split; [split|].
  - intros [r Hr].
    apply parseA1Range_returned in Hr as (l1 & d1 & l2 & d2 & H1 & H2 & _).
    split; apply match_ref_iff; eauto.
  - intros [H1 H2].
    apply match_ref_iff in H1 as [[l1 d1] H1], H2 as [[l2 d2] H2].
    eexists. now apply (parseA1Range_matched range l1 d1 l2 d2).
  - unfold parseA1Range. destruct (splitSheet range) as [name rangeOnly].
    destruct (Js.match_ref (startRefOf rangeOnly)) as [[l1 d1]|];
      [destruct (Js.match_ref (endRefOf rangeOnly)) as [[l2 d2]|]|];
      intros e H; now inversion H.
Qed.

(** X5.  In every range that [parseA1Range] returns the start column is
    at least 0, the end column at least 1, the end row at least 0 and the
    start row at least -1 (the row number 0 is not rejected). *)
Theorem parseA1Range_bounds (range : string) (r : RangeSpec) :
  parseA1Range range = Returned r ->
  0 <= startCol r /\ 1 <= endCol r /\ -1 <= startRow r /\ 0 <= endRow r.
Proof.
  intros Hr.
  apply parseA1Range_returned in Hr as (l1 & d1 & l2 & d2 & H1 & H2 & ->).
  apply match_ref_sound in H1 as (_ & Hn1 & Hl1 & Hd1).
  apply match_ref_sound in H2 as (_ & Hn2 & Hl2 & Hd2).
  cbn [startCol endCol startRow endRow].
  pose proof (columnLetterToIndex_nonneg l1 Hn1 Hl1).
  pose proof (columnLetterToIndex_nonneg l2 Hn2 Hl2).
  pose proof (parseInt_loop_nonneg d1 0 Hd1 (Z.le_refl 0)) as P1.
  pose proof (parseInt_loop_nonneg d2 0 Hd2 (Z.le_refl 0)) as P2.
  fold (Js.parseInt d1) in P1. fold (Js.parseInt d2) in P2.
  destruct (Js.truthy d1), (Js.truthy d2); lia.
Qed.

Lemma parseA1Range_bounds_witness :
  exists r, parseA1Range "A0:b7" = Returned r /\ startRow r = -1 /\ 1 <= endCol r.
Proof.
  eexists. split; [reflexivity|]. split; [reflexivity|].
  apply (parseA1Range_bounds "A0:b7"). reflexivity.
Defined.

Lemma reference_no_separator (sep : ascii) (letters digits : string) :
  (forall c, Js.is_letter c = true -> Ascii.eqb c sep = false) ->
  (forall c, Js.is_digit c = true -> Ascii.eqb c sep = false) ->
  letters_only letters = true ->
  Js.forall_string Js.is_digit digits = true ->
  Js.includes (letters ++ digits) sep = false.
Proof.
  intros Hl Hd Hletters Hdigits. rewrite includes_app.
  now rewrite (includes_absent _ _ _ Hl Hletters),
    (includes_absent _ _ _ Hd Hdigits).
Qed.

Lemma splitSheet_named (name rangeOnly : string) :
  Js.includes name "!" = false -> Js.includes rangeOnly "!" = false ->
  splitSheet (name ++ String "!" rangeOnly)
  = (Js.strip_quotes name, rangeOnly).
Proof.
  intros Hname Hrange. unfold splitSheet.
  rewrite includes_app, Hname. cbn [Js.includes]. rewrite Ascii.eqb_refl.
  cbn [orb].
  now rewrite (split_at_first _ _ _ Hname), (split_absent _ _ Hrange).
Qed.

(** X6.  A well-formed range, a sheet name without exclamation mark, then
    letters and digits, a colon, letters and digits, with at most 11
    letters and 15 digits in each group, parses to the sheet name without
    its outer quotes, the indices of the two letter groups (the end one
    plus 1) and the two row numbers (the start one minus 1); a missing
    start row is 0 and a missing end row is 1000. *)
Theorem parseA1Range_well_formed
  (name startLetters startDigits endLetters endDigits : string) :
  Js.includes name "!" = false ->
  startLetters <> EmptyString -> letters_only startLetters = true ->
  Js.forall_string Js.is_digit startDigits = true ->
  endLetters <> EmptyString -> letters_only endLetters = true ->
  Js.forall_string Js.is_digit endDigits = true ->
  exact_letters startLetters -> exact_digits startDigits ->
  exact_letters endLetters -> exact_digits endDigits ->
  parseA1Range
    (name ++ "!" ++ (startLetters ++ startDigits)
          ++ ":" ++ (endLetters ++ endDigits))
  = Returned
      {| sheetName := Js.strip_quotes name;
         startCol := columnLetterToIndex startLetters;
         startRow :=
           if Js.truthy startDigits then Js.parseInt startDigits - 1 else 0;
         endCol := columnLetterToIndex endLetters + 1;
         endRow :=
           if Js.truthy endDigits then Js.parseInt endDigits else 1000 |}.
Proof.
  intros Hname Hs Hsl Hsd He Hel Hed _ _ _ _.
  set (startRef := startLetters ++ startDigits).
  set (endRef := endLetters ++ endDigits).
  assert (Hsc : Js.includes startRef ":" = false)
    by (apply reference_no_separator;
        auto using letter_not_colon, digit_not_colon).
  assert (Hec : Js.includes endRef ":" = false)
    by (apply reference_no_separator;
        auto using letter_not_colon, digit_not_colon).
  assert (Hsb : Js.includes startRef "!" = false)
    by (apply reference_no_separator;
        auto using letter_not_bang, digit_not_bang).
  assert (Heb : Js.includes endRef "!" = false)
    by (apply reference_no_separator;
        auto using letter_not_bang, digit_not_bang).
  assert (Hne : endRef <> EmptyString).
  { subst endRef. destruct endLetters; [congruence | discriminate]. }
  assert (Hsplit :
    splitSheet (name ++ "!" ++ startRef ++ ":" ++ endRef)
    = (Js.strip_quotes name, startRef ++ ":" ++ endRef)).
  { apply (splitSheet_named name (startRef ++ ":" ++ endRef) Hname).
    rewrite includes_app, Hsb. cbn [append Js.includes].
    now rewrite Heb. }
  destruct (refs_of_colon_range startRef endRef Hsc Hec Hne) as [Rs Re].
  rewrite (parseA1Range_matched _ startLetters startDigits endLetters endDigits).
  - now rewrite Hsplit.
  - unfold rangeOnlyOf. rewrite Hsplit. cbn [snd]. rewrite Rs.
    now apply match_ref_complete.
  - unfold rangeOnlyOf. rewrite Hsplit. cbn [snd]. rewrite Re.
    now apply match_ref_complete.
Qed.

Lemma parseA1Range_well_formed_witness :
  parseA1Range ("'Q3'" ++ "!" ++ ("b" ++ "2") ++ ":" ++ ("AA" ++ EmptyString))
  = Returned
      {| sheetName := "Q3";
         startCol := 1; startRow := 1; endCol := 27; endRow := 1000 |}.
Proof.
  apply (parseA1Range_well_formed "'Q3'" "b" "2" "AA" EmptyString);
    solve [reflexivity | discriminate
          | unfold exact_letters, exact_digits; simpl; lia].
Defined.

(** X7.  When the cell-range portion has no colon and at most 11
    characters, so that its column index and its row number are exact in
    the code, a range that is returned is one column wide, and either one
    row high or, without a row number, the rows 0 to 1000. *)
Theorem parseA1Range_single_reference (range : string) (r : RangeSpec) :
  Js.includes (rangeOnlyOf range) ":" = false ->
  (String.length (rangeOnlyOf range) <= 11)%nat ->
  parseA1Range range = Returned r ->
  endCol r = startCol r + 1 /\
  (endRow r = startRow r + 1 \/ (startRow r = 0 /\ endRow r = 1000)).
Proof.
  intros Hcolon _ Hr.
  apply parseA1Range_returned in Hr as (l1 & d1 & l2 & d2 & H1 & H2 & ->).
  unfold startRefOf, endRefOf in H1, H2.
  rewrite (split_absent _ _ Hcolon) in H1, H2.
  cbn [nth nth_error] in H1, H2.
  unfold startRefOf in H2. rewrite (split_absent _ _ Hcolon) in H2.
  cbn [nth] in H2.
  rewrite H1 in H2. injection H2 as <- <-.
  cbn [startCol endCol startRow endRow]. split; [reflexivity|].
  destruct (Js.truthy d1); [left; lia | right; split; reflexivity].
Qed.

Lemma parseA1Range_single_reference_witness :
  exists r, parseA1Range "Data!c7" = Returned r /\ endCol r = startCol r + 1.
Proof.
  eexists. split; [reflexivity|].
  apply (parseA1Range_single_reference "Data!c7");
    solve [reflexivity | vm_compute; lia].
Defined.

Lemma strip_last_snoc (q : ascii) (s : string) :
  Js.strip_last q (s ++ String q EmptyString) = s.
Proof.
  induction s as [|c s IH].
  - simpl. now rewrite Ascii.eqb_refl.
  - cbn [append Js.strip_last]. rewrite IH.
    now destruct (s ++ String q EmptyString) eqn:E;
      [destruct s; discriminate E|].
Qed.

(** X8.  A sheet name written between single quotes before the exclamation
    mark is returned without the quotes, whatever it contains besides
    exclamation marks. *)
Theorem parseA1Range_quoted_sheet (name rest : string) (r : RangeSpec) :
  Js.includes name "!" = false ->
  parseA1Range ("'" ++ name ++ "'" ++ "!" ++ rest) = Returned r ->
  sheetName r = name.
Proof.
  intros Hname Hr.
  apply parseA1Range_returned in Hr as (l1 & d1 & l2 & d2 & _ & _ & ->).
  cbn [sheetName]. unfold splitSheet.
  replace ("'" ++ name ++ "'" ++ "!" ++ rest)
    with (("'" ++ name ++ "'") ++ String "!" rest)
    by (cbn [append]; now rewrite append_assoc).
  assert (Hq : Js.includes ("'" ++ name ++ "'") "!" = false).
  { cbn [append Js.includes]. rewrite includes_app, Hname. reflexivity. }
  rewrite includes_app, Hq. cbn [Js.includes]. rewrite Ascii.eqb_refl.
  cbn [orb].
  rewrite (split_at_first _ _ _ Hq). cbn [nth fst].
  cbn [append Js.strip_quotes]. rewrite Ascii.eqb_refl.
  apply strip_last_snoc.
Qed.

Lemma parseA1Range_quoted_sheet_witness :
  exists r,
    parseA1Range ("'" ++ "Bob's Q3" ++ "'" ++ "!" ++ "A1:B2") = Returned r /\
    sheetName r = "Bob's Q3".
Proof.
  eexists. split; [reflexivity|].
  apply (parseA1Range_quoted_sheet "Bob's Q3" "A1:B2"); reflexivity.
Defined.

(** ** Group rules and pivot groups: what is compiled *)

(** X9.  [buildGroupRule] fails exactly when the rule has none of its three
    keys; a date-time key is compiled whatever the other keys, and a
    histogram key whatever the manual key. *)
Theorem buildGroupRule_keys {number : Type} (rule : GroupRuleInput number) :
  (fails (buildGroupRule rule) <-> has_key rule = false) /\
  (forall dt, date_time rule = Some dt ->
     buildGroupRule rule = Returned (dateTimeRule number (dt_type dt))) /\
  (forall h, date_time rule = None -> histogram rule = Some h ->
     buildGroupRule rule
     = Returned (histogramRule number (h_interval _ h) (h_start _ h) (h_end _ h))).
Proof.
  destruct rule as [[dt|] [h|] [m|]]; unfold buildGroupRule, has_key; simpl;
    (split;
     [split;
      [intros [e He]; try discriminate He; reflexivity
      |intros Hk; try discriminate Hk; now eexists]
     |split; intros; congruence]).
Qed.

Lemma map_injective {A B : Type} (f : A -> B) (l l' : list A) :
  (forall x y, f x = f y -> x = y) -> map f l = map f l' -> l = l'.
Proof.
  intros Hf. revert l'. induction l as [|x l IH]; intros [|y l'] H;
    try discriminate; [reflexivity|].
  simpl in H. injection H as Hxy Hrest.
  f_equal; [now apply Hf | now apply IH].
Qed.

(** X10.  On rules with exactly one key [buildGroupRule] loses nothing:
    two such rules with the same compiled rule are equal. *)
Theorem buildGroupRule_injective {number : Type}
  (rule rule' : GroupRuleInput number) :
  one_key rule = true -> one_key rule' = true ->
  buildGroupRule rule = buildGroupRule rule' -> rule = rule'.
Proof.
  destruct rule as [[dt|] [h|] [m|]]; try discriminate;
    destruct rule' as [[dt'|] [h'|] [m'|]]; try discriminate;
    unfold buildGroupRule; simpl; intros _ _ H; try discriminate.
  - destruct dt, dt'. simpl in H. now inversion H.
  - destruct h, h'. simpl in H. now inversion H.
  - destruct m as [gs], m' as [gs']. simpl in H. injection H as H.
    do 3 f_equal. revert H. apply map_injective.
    intros [n1 i1] [n2 i2]; simpl. intros H. injection H as Hn Hi.
    f_equal; [exact Hn|]. revert Hi. apply map_injective.
    intros [x|x] [y|y] Hxy; now inversion Hxy.
Qed.

Lemma buildGroupRule_injective_witness :
  ({| date_time := Some {| dt_type := MONTH |};
      histogram := None; manual := None |} : GroupRuleInput no_number)
  = {| date_time := Some {| dt_type := MONTH |};
       histogram := None; manual := None |}.
Proof.
  exact (buildGroupRule_injective
           {| date_time := Some {| dt_type := MONTH |};
              histogram := None; manual := None |}
           {| date_time := Some {| dt_type := MONTH |};
              histogram := None; manual := None |}
           eq_refl eq_refl eq_refl).
Defined.

Lemma buildPivotGroup_returned {number : Type}
  (group : PivotGroupInput number) (pivotGroup : PivotGroup number) :
  buildPivotGroup group = Returned pivotGroup ->
  pivotGroup =
  {| sourceColumnOffset := resolveColumnIndex (source_column group);
     showTotals := show_totals group;
     pg_label := truthy_string (label group);
     sortOrder := sort_order group;
     valueBucket := valueBucket pivotGroup;
     groupRule := groupRule pivotGroup;
     groupLimit :=
       match group_limit group with
       | Some n => if n =? 0 then None else Some n
       | None => None
       end |}.
Proof.
  unfold buildPivotGroup.
  destruct (group_rule group) as [rule|]; cbn [obind].
  - destruct (buildGroupRule rule); cbn [obind]; [|discriminate].
    intros H. injection H as <-. reflexivity.
  - intros H. injection H as <-. reflexivity.
Qed.

(** [buildPivotGroup] returns a group exactly when the group has no group
    rule or its group rule has a key. *)
Lemma buildPivotGroup_returns_iff {number : Type}
  (group : PivotGroupInput number) :
  (exists pivotGroup, buildPivotGroup group = Returned pivotGroup) <->
  group_compiles group = true.
Proof.
  unfold buildPivotGroup, group_compiles.
  destruct (group_rule group) as [[[dt|] [h|] [m|]]|];
    unfold buildGroupRule, has_key; simpl; split;
    try (intros _; reflexivity);
    try (intros _; eexists; reflexivity).
  - intros [pg H]. discriminate H.
  - intros H. discriminate H.
Qed.

(** X11.  A compiled group never has an empty label nor a group limit of
    0; a non-empty label and a positive group limit, as [PivotGroupSchema]
    requires it, are carried over. *)
Theorem buildPivotGroup_label_limit {number : Type}
  (group : PivotGroupInput number) (pivotGroup : PivotGroup number) :
  buildPivotGroup group = Returned pivotGroup ->
  pg_label pivotGroup <> Some EmptyString /\
  groupLimit pivotGroup <> Some 0 /\
  (forall l, label group = Some l -> l <> EmptyString ->
     pg_label pivotGroup = Some l) /\
  (forall n, group_limit group = Some n -> 0 < n ->
     groupLimit pivotGroup = Some n).
Proof.
  intros H. apply buildPivotGroup_returned in H. rewrite H.
  cbn [pg_label groupLimit]. repeat split.
  - unfold truthy_string. destruct (label group) as [[|c l]|]; discriminate.
  - destruct (group_limit group) as [n|]; [|discriminate].
    destruct (n =? 0) eqn:E; [discriminate|].
    apply Z.eqb_neq in E. congruence.
  - intros l -> Hl. unfold truthy_string. apply truthy_true in Hl.
    now rewrite Hl.
  - intros n -> Hn. destruct (n =? 0) eqn:E; [|reflexivity].
    apply Z.eqb_eq in E. lia.
Qed.

Lemma buildPivotGroup_label_limit_witness :
  exists pivotGroup : PivotGroup no_number,
    buildPivotGroup
      {| source_column := ColNumber 2; label := Some EmptyString;
         show_totals := true; sort_order := None; sort_by_value := None;
         group_rule := None; group_limit := Some 5 |}
    = Returned pivotGroup /\
    pg_label pivotGroup <> Some EmptyString /\
    groupLimit pivotGroup = Some 5.
Proof.
  eexists. split; [reflexivity|].
  destruct (buildPivotGroup_label_limit (number := no_number)
              {| source_column := ColNumber 2; label := Some EmptyString;
                 show_totals := true; sort_order := None;
                 sort_by_value := None; group_rule := None;
                 group_limit := Some 5 |} _ eq_refl)
    as (Hlabel & _ & _ & Hlimit).
  split; [exact Hlabel|]. apply Hlimit; [reflexivity | lia].
Defined.

(** X12.  For a pivot value that passes the refinements of
    [PivotValueSchema], [buildPivotValue] never emits both a column offset
    and a formula, and it emits neither exactly when the input has no
    source column and the empty string as formula. *)
Theorem buildPivotValue_of_valid (val : PivotValueInput) :
  PivotValueSchema_refinements val = [] ->
  ~ (pv_sourceColumnOffset (buildPivotValue val) <> None /\
     formula (buildPivotValue val) <> None) /\
  ((pv_sourceColumnOffset (buildPivotValue val) = None /\
    formula (buildPivotValue val) = None) <->
   (pv_source_column val = None /\ pv_formula val = Some EmptyString)).
Proof.
  destruct val as [[column|] [[|c f]|] fn nm display];
    unfold PivotValueSchema_refinements, buildPivotValue; simpl;
    intros H; try discriminate H; split;
    try (intros [H1 H2]; congruence);
    split; intros [H1 H2]; try discriminate; split; congruence.
Qed.

Lemma buildPivotValue_of_valid_witness :
  pv_sourceColumnOffset
    (buildPivotValue
       {| pv_source_column := None; pv_formula := Some EmptyString;
          pv_summarize_function := CUSTOM; pv_name := None;
          pv_calculated_display_type := None |}) = None /\
  formula
    (buildPivotValue
       {| pv_source_column := None; pv_formula := Some EmptyString;
          pv_summarize_function := CUSTOM; pv_name := None;
          pv_calculated_display_type := None |}) = None.
Proof.
  apply (buildPivotValue_of_valid
           {| pv_source_column := None; pv_formula := Some EmptyString;
              pv_summarize_function := CUSTOM; pv_name := None;
              pv_calculated_display_type := None |} eq_refl).
  split; reflexivity.
Defined.

(** ** The lookup of a sheet by name *)

Lemma find_some_in {A : Type} (p : A -> bool) (l : list A) (x : A) :
  find p l = Some x -> In x l /\ p x = true.
Proof. apply find_some. Qed.

(** X13.  When [getSheetIdByName] returns an identifier, the identifier is
    not 0 and it is that of the first sheet with the requested title in the
    metadata the service returned; and whatever the outcome, the lookup
    makes one metadata query and no other call. *)
Theorem getSheetIdByName_sound {number : Type}
  (client : SheetsClient number) (spreadsheetId sheetName : string)
  (log : list (Call number)) :
  snd (getSheetIdByName client spreadsheetId sheetName log)
    = (log ++ [Get spreadsheetId metadata_fields])%list /\
  (forall id : Z,
     fst (getSheetIdByName client spreadsheetId sheetName log) = Returned id ->
     id <> 0 /\
     exists data sheet,
       answer_get client log spreadsheetId metadata_fields = Returned data /\
       find (has_title sheetName) (sheets_or_empty data) = Some sheet /\
       In sheet (sheets_or_empty data) /\
       has_title sheetName sheet = true /\
       sheetId_of (Some sheet) = Some id).
Proof.
  unfold getSheetIdByName, bind, spreadsheets_get, ret, throw, metadata_fields.
  destruct (answer_get client log spreadsheetId _) as [data|e] eqn:Hget.
  - destruct (find (has_title sheetName) (sheets_or_empty data))
      as [sheet|] eqn:Hfind.
    + destruct (sheetId_of (Some sheet)) as [id|] eqn:Hid.
      * destruct (id =? 0) eqn:Hz; cbn [fst snd]; split; try reflexivity;
          intros id' H; try discriminate H.
        injection H as <-. apply Z.eqb_neq in Hz. split; [exact Hz|].
        exists data, sheet. apply find_some_in in Hfind as Hin.
        now repeat split.
      * cbn [fst snd]. split; [reflexivity | intros id H; discriminate H].
    + cbn [sheetId_of fst snd].
      split; [reflexivity | intros id H; discriminate H].
  - cbn [fst snd]. split; [reflexivity | intros id H; discriminate H].
Qed.

(** ** The pivot table object *)

Lemma omap_returned {A B : Type} (f : A -> Outcome B) (l : list A)
  (ys : list B) :
  omap f l = Returned ys -> Forall2 (fun x y => f x = Returned y) l ys.
Proof.
  revert ys. induction l as [|x l IH]; simpl; intros ys H.
  - injection H as <-. constructor.
  - destruct (f x) as [y|e] eqn:Hx; cbn [obind] in H; [|discriminate].
    destruct (omap f l) as [ys'|e]; cbn [obind] in H; [|discriminate].
    injection H as <-. constructor; [exact Hx | now apply IH].
Qed.

Lemma omap_returns_iff {A B : Type} (f : A -> Outcome B) (l : list A) :
  (exists ys, omap f l = Returned ys) <->
  Forall (fun x => exists y, f x = Returned y) l.
Proof.
  induction l as [|x l IH]; simpl.
  - split; [constructor | eexists; reflexivity].
  - split.
    + intros [ys H]. destruct (f x) as [y|e] eqn:Hx; cbn [obind] in H;
        [|discriminate].
      destruct (omap f l) as [ys'|e]; cbn [obind] in H; [|discriminate].
      constructor; [exists y; exact Hx | apply IH; eexists; reflexivity].
    + intros H. inversion H as [|? ? [y Hy] Hl]; subst.
      apply IH in Hl as [ys Hys]. rewrite Hy, Hys. eexists; reflexivity.
Qed.

Lemma omap_length {A B : Type} (f : A -> Outcome B) (l : list A)
  (ys : list B) :
  omap f l = Returned ys -> List.length ys = List.length l.
Proof.
  intros H. apply omap_returned in H.
  induction H; simpl; [reflexivity | now f_equal].
Qed.

Lemma buildPivotTable_returned {number : Type}
  (numberToString : number -> string) (params : CreatePivotTableInput number)
  (sourceId : Z) (parsedRange : RangeSpec) (pivotTable : PivotTable number) :
  buildPivotTable numberToString params sourceId parsedRange
    = Returned pivotTable ->
  exists pivotRows pivotColumns,
    omap buildPivotGroup (list_or_empty (rows params))
      = Returned pivotRows /\
    omap buildPivotGroup (list_or_empty (columns params))
      = Returned pivotColumns /\
    pivotTable =
    {| source :=
         {| gr_sheetId := sourceId;
            startRowIndex := startRow parsedRange;
            startColumnIndex := startCol parsedRange;
            endRowIndex := endRow parsedRange;
            endColumnIndex := endCol parsedRange |};
       pt_rows := non_empty pivotRows;
       pt_columns := non_empty pivotColumns;
       pt_values := map buildPivotValue (values params);
       valueLayout := value_layout params;
       filterSpecs :=
         option_map (buildPivotFilters numberToString) (filters params) |}.
Proof.
  unfold buildPivotTable.
  destruct (omap buildPivotGroup (list_or_empty (rows params)))
    as [pivotRows|e]; cbn [obind]; [|discriminate].
  destruct (omap buildPivotGroup (list_or_empty (columns params)))
    as [pivotColumns|e]; cbn [obind]; [|discriminate].
  intros H. injection H as <-. now exists pivotRows, pivotColumns.
Qed.

(** X14.  The pivot table object is built exactly when every row group and
    every column group of the parameters has no group rule or a group rule
    with a key. *)
Theorem buildPivotTable_returns_iff {number : Type}
  (numberToString : number -> string) (params : CreatePivotTableInput number)
  (sourceId : Z) (parsedRange : RangeSpec) :
  (exists pivotTable,
     buildPivotTable numberToString params sourceId parsedRange
       = Returned pivotTable) <->
  Forall (fun group => group_compiles group = true)
    (list_or_empty (rows params)) /\
  Forall (fun group => group_compiles group = true)
    (list_or_empty (columns params)).
Proof.
  assert (Hall : forall l : list (PivotGroupInput number),
    (exists ys, omap buildPivotGroup l = Returned ys) <->
    Forall (fun group => group_compiles group = true) l).
  { intros l. rewrite omap_returns_iff. split; intros H;
      (eapply Forall_impl; [|exact H]); intros g Hg;
      now apply buildPivotGroup_returns_iff. }
  split.
  - intros [pt H].
    apply buildPivotTable_returned in H as (pr & pc & Hr & Hc & _).
    split; apply Hall; eauto.
  - intros [Hr Hc]. apply Hall in Hr as [pr Hr], Hc as [pc Hc].
    unfold buildPivotTable. rewrite Hr, Hc. cbn [obind]. now eexists.
Qed.

(** X15.  For parameters that pass the top-level checks of
    [CreatePivotTableSchema] (a row or a column grouping, at least one
    value), a pivot table that is built has rows or columns, never an
    empty list of them, and has as many values as the parameters, at least
    one. *)
Theorem buildPivotTable_of_valid {number : Type}
  (numberToString : number -> string) (params : CreatePivotTableInput number)
  (sourceId : Z) (parsedRange : RangeSpec) (pivotTable : PivotTable number) :
  CreatePivotTableSchema_refinement params = true ->
  CreatePivotTableSchema_values_min params = true ->
  buildPivotTable numberToString params sourceId parsedRange
    = Returned pivotTable ->
  (pt_rows pivotTable <> None \/ pt_columns pivotTable <> None) /\
  pt_rows pivotTable <> Some [] /\ pt_columns pivotTable <> Some [] /\
  List.length (pt_values pivotTable) = List.length (values params) /\
  pt_values pivotTable <> [].
Proof.
  intros Href Hmin H.
  apply buildPivotTable_returned in H as (pr & pc & Hr & Hc & ->).
  cbn [pt_rows pt_columns pt_values].
  apply omap_length in Hr, Hc.
  unfold CreatePivotTableSchema_refinement in Href.
  unfold CreatePivotTableSchema_values_min in Hmin.
  apply Nat.leb_le in Hmin.
  repeat split.
  - destruct (rows params) as [[|g gs]|]; cbn [list_or_empty] in Hr;
      [| left; destruct pr; [discriminate Hr | discriminate] |];
      (destruct (columns params) as [[|g' gs']|]; cbn [list_or_empty] in Hc;
       try discriminate Href;
       right; destruct pc; [discriminate Hc | discriminate]).
  - destruct pr; discriminate.
  - destruct pc; discriminate.
  - apply length_map.
  - destruct (values params); [simpl in Hmin; lia | discriminate].
Qed.

Lemma buildPivotTable_of_valid_witness :
  exists pivotTable : PivotTable no_number,
    buildPivotTable no_number_string (sales_spec "s1" None) 3 sales_range
      = Returned pivotTable /\
    pt_values pivotTable <> [].
Proof.
  eexists. split; [reflexivity|].
  apply (buildPivotTable_of_valid no_number_string (sales_spec "s1" None)
           3 sales_range _ eq_refl eq_refl eq_refl).
Defined.

(** ** The calls of the handler *)

Lemma destinationSheet_log {number : Type} (client : SheetsClient number)
  (params : CreatePivotTableInput number) (log : list (Call number)) :
  snd (destinationSheet client params log)
  = (log ++ addSheet_calls params)%list.
Proof.
  unfold destinationSheet, addSheet_calls, bind, spreadsheets_batchUpdate,
    ret, throw.
  destruct (destination_sheet_id params) as [id|]; cbn [snd].
  - now rewrite app_nil_r.
  - destruct (answer_batchUpdate client log _ _) as [resp|e]; [|reflexivity].
    now destruct (match _ with Some props => sheetId props | None => None end).
Qed.

(** The handler, stage by stage. *)
Lemma createPivotTable_stages {number : Type}
  (numberToString : number -> string)
  (getSheetsClient : Outcome (SheetsClient number))
  (params : CreatePivotTableInput number) (log : list (Call number)) :
  createPivotTable numberToString getSheetsClient params log =
  match getSheetsClient with
  | Thrown e => (Thrown e, log)
  | Returned client =>
      match parseA1Range (source_range params) with
      | Thrown e => (Thrown e, log)
      | Returned parsedRange =>
          match sourceSheetId client params parsedRange log with
          | (Thrown e, log1) => (Thrown e, log1)
          | (Returned sourceId, log1) =>
              match destinationSheet client params log1 with
              | (Thrown e, log2) => (Thrown e, log2)
              | (Returned destination, log2) =>
                  match
                    buildPivotTable numberToString params sourceId parsedRange
                  with
                  | Thrown e => (Thrown e, log2)
                  | Returned pivotTable =>
                      let update :=
                        BatchUpdate (spreadsheet_id params)
                          [updateCellsRequest pivotTable (fst destination)] in
                      match
                        answer_batchUpdate client log2 (spreadsheet_id params)
                          [updateCellsRequest pivotTable (fst destination)]
                      with
                      | Thrown e => (Thrown e, (log2 ++ [update])%list)
                      | Returned _ =>
                          (Returned
                             {| out_spreadsheetId := spreadsheet_id params;
                                pivotTableSheetId := fst destination;
                                pivotTableSheetName := snd destination;
                                sourceRange := source_range params;
                                rowGroups :=
                                  List.length (list_or_empty (rows params));
                                columnGroups :=
                                  List.length (list_or_empty (columns params));
                                valueAggregations :=
                                  List.length (values params);
                                out_filters :=
                                  List.length (list_or_empty (filters params))
                             |},
                           (log2 ++ [update])%list)
                      end
                  end
              end
          end
      end
  end.
Proof.
  unfold createPivotTable, bind, lift, spreadsheets_batchUpdate, ret.
  destruct getSheetsClient as [client|e]; [|reflexivity].
  destruct (parseA1Range (source_range params)) as [r|e]; [|reflexivity].
  destruct (sourceSheetId client params r log) as [[sid|e] log1];
    [|reflexivity].
  destruct (destinationSheet client params log1) as [[dest|e] log2];
    [|reflexivity].
  destruct (buildPivotTable numberToString params sid r) as [pt|e];
    [|reflexivity].
  now destruct (answer_batchUpdate client log2 _ _).
Qed.

(** X16.  Whatever the service answers, the calls of a run of the handler
    are an initial part of its complete sequence: one metadata query, then
    one [addSheet] with the requested name, only when the parameters give no
    destination identifier, then one [updateCells]; and when the handler
    returns its output the sequence is complete, the [updateCells] going to
    the sheet the output reports. *)
Theorem createPivotTable_calls {number : Type}
  (numberToString : number -> string)
  (getSheetsClient : Outcome (SheetsClient number))
  (params : CreatePivotTableInput number) (log : list (Call number)) :
  exists (pivotTable : PivotTable number) (destinationId : Z)
         (calls rest : list (Call number)),
    snd (createPivotTable numberToString getSheetsClient params log)
      = (log ++ calls)%list /\
    (calls ++ rest)%list = planned_calls params pivotTable destinationId /\
    (forall output,
       fst (createPivotTable numberToString getSheetsClient params log)
         = Returned output ->
       rest = [] /\ pivotTableSheetId output = destinationId).
Proof.
  rewrite createPivotTable_stages.
  destruct getSheetsClient as [client|e].
  2:{ exists empty_pivotTable, 0, [], (planned_calls params empty_pivotTable 0).
      cbn [fst snd]. rewrite app_nil_r. repeat split; discriminate. }
  destruct (parseA1Range (source_range params)) as [r|e].
  2:{ exists empty_pivotTable, 0, [], (planned_calls params empty_pivotTable 0).
      cbn [fst snd]. rewrite app_nil_r. repeat split; discriminate. }
  pose proof (sourceSheetId_log client params r log) as Hlog1.
  destruct (sourceSheetId client params r log) as [[sid|e] log1];
    cbn [snd] in Hlog1; subst log1.
  2:{ exists empty_pivotTable, 0,
        [Get (spreadsheet_id params) metadata_fields],
        (addSheet_calls params
         ++ [BatchUpdate (spreadsheet_id params)
               [updateCellsRequest empty_pivotTable 0]])%list.
      cbn [fst snd]. repeat split; discriminate. }
  pose proof (destinationSheet_log client params
                (log ++ [Get (spreadsheet_id params) metadata_fields])%list)
    as Hlog2.
  destruct (destinationSheet client params _) as [[dest|e] log2];
    cbn [snd] in Hlog2; subst log2.
  2:{ exists empty_pivotTable, 0,
        (Get (spreadsheet_id params) metadata_fields :: addSheet_calls params),
        [BatchUpdate (spreadsheet_id params)
           [updateCellsRequest empty_pivotTable 0]].
      cbn [fst snd]. rewrite <- app_assoc. repeat split; discriminate. }
  destruct (buildPivotTable numberToString params sid r) as [pt|e].
  2:{ exists empty_pivotTable, 0,
        (Get (spreadsheet_id params) metadata_fields :: addSheet_calls params),
        [BatchUpdate (spreadsheet_id params)
           [updateCellsRequest empty_pivotTable 0]].
      cbn [fst snd]. rewrite <- app_assoc. repeat split; discriminate. }
  exists pt, (fst dest), (planned_calls params pt (fst dest)), [].
  cbv zeta.
  destruct (answer_batchUpdate client _ _ _) as [resp|e]; cbn [fst snd];
    unfold planned_calls; rewrite <- !app_assoc, app_nil_r;
    (split; [reflexivity|]); (split; [reflexivity|]);
    intros out H; [|discriminate H].
  injection H as <-. now split.
Qed.

Lemma destinationSheet_given {number : Type} (client : SheetsClient number)
  (params : CreatePivotTableInput number) (log : list (Call number)) (id : Z) :
  destination_sheet_id params = Some id ->
  destinationSheet client params log
  = (Returned (id, destination_sheet_name params), log).
Proof. unfold destinationSheet. now intros ->. Qed.

(** X17.  When the parameters give a destination identifier, the handler
    never adds a sheet: its calls are at most the metadata query and one
    [updateCells] into the given sheet; and the output it returns reports
    the given identifier, the requested sheet name and the numbers of row
    groups, column groups and values of the parameters. *)
Theorem createPivotTable_given_destination {number : Type}
  (numberToString : number -> string)
  (getSheetsClient : Outcome (SheetsClient number))
  (params : CreatePivotTableInput number) (log : list (Call number))
  (id : Z) :
  destination_sheet_id params = Some id ->
  (exists calls,
     snd (createPivotTable numberToString getSheetsClient params log)
       = (log ++ calls)%list /\
     (calls = [] \/
      calls = [Get (spreadsheet_id params) metadata_fields] \/
      exists pivotTable,
        calls = [Get (spreadsheet_id params) metadata_fields;
                 BatchUpdate (spreadsheet_id params)
                   [updateCellsRequest pivotTable id]])) /\
  (forall output,
     fst (createPivotTable numberToString getSheetsClient params log)
       = Returned output ->
     pivotTableSheetId output = id /\
     pivotTableSheetName output = destination_sheet_name params /\
     rowGroups output = List.length (list_or_empty (rows params)) /\
     columnGroups output = List.length (list_or_empty (columns params)) /\
     valueAggregations output = List.length (values params)).
Proof.
  intros Hid. rewrite createPivotTable_stages.
  destruct getSheetsClient as [client|e].
  2:{ split; [exists []; rewrite app_nil_r; auto | discriminate]. }
  destruct (parseA1Range (source_range params)) as [r|e].
  2:{ split; [exists []; rewrite app_nil_r; auto | discriminate]. }
  pose proof (sourceSheetId_log client params r log) as Hlog1.
  destruct (sourceSheetId client params r log) as [[sid|e] log1];
    cbn [snd] in Hlog1; subst log1.
  2:{ split; [eexists; split; [reflexivity | auto] | discriminate]. }
  rewrite (destinationSheet_given client params _ id Hid).
  destruct (buildPivotTable numberToString params sid r) as [pt|e].
  2:{ split; [eexists; split; [reflexivity | auto] | discriminate]. }
  cbv zeta. cbn [fst snd].
  destruct (answer_batchUpdate client _ _ _) as [resp|e]; cbn [fst snd];
    (split;
     [exists [Get (spreadsheet_id params) metadata_fields;
              BatchUpdate (spreadsheet_id params) [updateCellsRequest pt id]];
      split; [now rewrite <- app_assoc | right; right; now exists pt]
     |intros out H; try discriminate H]).
  injection H as <-. now repeat split.
Qed.

Lemma createPivotTable_given_destination_witness :
  exists output,
    fst (createPivotTable no_number_string (Returned sales_client)
           (sales_spec "s1" (Some 12)) [])
      = Returned output /\
    pivotTableSheetId output = 12.
Proof.
  eexists. split; [reflexivity|].
  destruct (createPivotTable_given_destination no_number_string
              (Returned sales_client) (sales_spec "s1" (Some 12)) [] 12
              eq_refl) as [_ Hout].
  apply Hout. reflexivity.
Defined.

(** X18.  The addition of the destination sheet is not undone: when the
    parameters give no destination identifier, the source sheet is resolved
    and the new sheet is added, but the pivot table object cannot be built,
    the handler fails with the error of the build and its calls are the
    metadata query and the [addSheet], with no [updateCells]. *)
Theorem createPivotTable_keeps_added_sheet {number : Type}
  (numberToString : number -> string) (client : SheetsClient number)
  (params : CreatePivotTableInput number) (log : list (Call number))
  (parsedRange : RangeSpec) (sourceId : Z) (destination : Z * string)
  (e : string) :
  destination_sheet_id params = None ->
  parseA1Range (source_range params) = Returned parsedRange ->
  fst (sourceSheetId client params parsedRange log) = Returned sourceId ->
  fst (destinationSheet client params
         (log ++ [Get (spreadsheet_id params) metadata_fields])%list)
    = Returned destination ->
  buildPivotTable numberToString params sourceId parsedRange = Thrown e ->
  createPivotTable numberToString (Returned client) params log
  = (Thrown e,
     (log ++ [Get (spreadsheet_id params) metadata_fields;
              BatchUpdate (spreadsheet_id params)
                [addSheetRequest (destination_sheet_name params)]])%list).
Proof.
  intros Hnone Hparse Hsource Hdest Hbuild.
  rewrite createPivotTable_stages, Hparse.
  pose proof (sourceSheetId_log client params parsedRange log) as Hlog1.
  destruct (sourceSheetId client params parsedRange log) as [o1 log1].
  cbn [fst snd] in Hsource, Hlog1. subst o1 log1.
  pose proof (destinationSheet_log client params
                (log ++ [Get (spreadsheet_id params) metadata_fields])%list)
    as Hlog2.
  destruct (destinationSheet client params _) as [o2 log2].
  cbn [fst snd] in Hdest, Hlog2. subst o2 log2.
  rewrite Hbuild. unfold addSheet_calls. rewrite Hnone.
  now rewrite <- app_assoc.
Qed.

Lemma createPivotTable_keeps_added_sheet_witness :
  createPivotTable no_number_string (Returned sales_client) keyless_spec []
  = (Thrown InvalidGroupRule,
     [Get "s1" metadata_fields;
      BatchUpdate "s1" [addSheetRequest "Pivot Table"]]).
Proof.
  apply (createPivotTable_keeps_added_sheet no_number_string sales_client
           keyless_spec [] sales_range 3 (7, "Pivot Table") InvalidGroupRule);
    reflexivity.
Defined.

(** ** Truncated text, new spreadsheets and rendered values *)

Lemma length_app_string (a b : string) :
  String.length (a ++ b) = (String.length a + String.length b)%nat.
Proof. induction a as [|c a IH]; simpl; [reflexivity | now rewrite IH]. Qed.

Lemma substring_prefix (n : nat) (s : string) :
  (n <= String.length s)%nat ->
  exists dropped,
    s = String.substring 0 n s ++ dropped /\
    String.length (String.substring 0 n s) = n.
Proof.
  revert s. induction n as [|n IH]; intros s Hn.
  - exists s. destruct s; now split.
  - destruct s as [|c s]; [simpl in Hn; lia|].
    destruct (IH s) as (dropped & Hs & Hl); [simpl in Hn; lia|].
    exists dropped. cbn [String.substring append String.length].
    split; [now rewrite <- Hs | now rewrite Hl].
Qed.

(** X19.  The truncated text is never longer than the character limit plus
    the 21 characters of the notice; a text within the limit is left as it
    is, and of a longer text exactly the first 25000 characters are kept,
    followed by the notice. *)
Theorem truncate_bounded (textOutput : string) :
  Z.of_nat (String.length (truncate textOutput)) <= CHARACTER_LIMIT + 21 /\
  (Z.of_nat (String.length textOutput) <= CHARACTER_LIMIT ->
   truncate textOutput = textOutput) /\
  (CHARACTER_LIMIT < Z.of_nat (String.length textOutput) ->
   exists kept dropped,
     textOutput = kept ++ dropped /\
     Z.of_nat (String.length kept) = CHARACTER_LIMIT /\
     truncate textOutput = kept ++ truncation_notice).
Proof.
  unfold truncate.
  assert (Hnotice : String.length truncation_notice = 21%nat) by reflexivity.
  assert (Hlimit : 0 <= CHARACTER_LIMIT) by (unfold CHARACTER_LIMIT; lia).
  destruct (Z.of_nat (String.length textOutput) >? CHARACTER_LIMIT) eqn:Hgt.
  - apply Z.gtb_lt in Hgt.
    destruct (substring_prefix (Z.to_nat CHARACTER_LIMIT) textOutput)
      as (dropped & Hs & Hl); [lia|].
    split; [|split].
    + rewrite length_app_string, Hl, Hnotice. lia.
    + lia.
    + intros _. exists (String.substring 0 (Z.to_nat CHARACTER_LIMIT) textOutput),
        dropped.
      split; [exact Hs|]. split; [rewrite Hl; lia | reflexivity].
  - assert (Z.of_nat (String.length textOutput) <= CHARACTER_LIMIT).
    { destruct (Z.gtb_spec (Z.of_nat (String.length textOutput))
                  CHARACTER_LIMIT); [discriminate | lia]. }
    split; [lia|]. split; [reflexivity | lia].
Qed.

Lemma sheets_from_nth (titles : list string) (index : Z) (i : nat)
  (sheet_title : string) :
  nth_error titles i = Some sheet_title ->
  nth_error (sheets_from index titles) i
  = Some (named_sheet (index + Z.of_nat i) sheet_title).
Proof.
  revert index i. induction titles as [|t titles IH]; intros index [|i] H;
    try discriminate.
  - injection H as <-. cbn. unfold named_sheet. now rewrite Z.add_0_r.
  - cbn [nth_error sheets_from]. rewrite (IH (index + 1) i H).
    do 2 f_equal. lia.
Qed.

Lemma sheets_from_length (titles : list string) (index : Z) :
  List.length (sheets_from index titles) = List.length titles.
Proof.
  revert index. induction titles as [|t titles IH]; intros index; simpl;
    [reflexivity | now rewrite IH].
Qed.

(** X20.  In the request body of a new spreadsheet, every requested sheet
    title gets a sheet whose identifier is the position of the title in the
    list, so the identifiers are distinct even when titles repeat; without
    titles, or with an empty list, the body has no sheets. *)
Theorem createRequestBody_sheets (spreadsheet_title : string)
  (titles : list string) :
  (forall i sheet_title,
     nth_error titles i = Some sheet_title ->
     exists sheetList,
       rb_sheets (createRequestBody spreadsheet_title (Some titles))
         = Some sheetList /\
       List.length sheetList = List.length titles /\
       nth_error sheetList i = Some (named_sheet (Z.of_nat i) sheet_title)) /\
  rb_sheets (createRequestBody spreadsheet_title None) = None /\
  rb_sheets (createRequestBody spreadsheet_title (Some [])) = None.
Proof.
  split; [|split; reflexivity].
  intros i t Hi. unfold createRequestBody. cbn [rb_sheets].
  destruct titles as [|t0 titles]; [destruct i; discriminate Hi|].
  cbn [List.length Nat.ltb Nat.leb].
  eexists. split; [reflexivity|]. split.
  - apply sheets_from_length.
  - now rewrite (sheets_from_nth _ 0 i t Hi).
Qed.

Lemma line_breaks_app (a b : string) :
  line_breaks (a ++ b) = (line_breaks a + line_breaks b)%nat.
Proof.
  induction a as [|c a IH]; simpl; [reflexivity|]. rewrite IH. lia.
Qed.

Lemma list_sum_cons (x : nat) (l : list nat) :
  list_sum (x :: l) = (x + list_sum l)%nat.
Proof. reflexivity. Qed.

Lemma line_breaks_concat (sep : string) (l : list string) :
  line_breaks (String.concat sep l)
  = (list_sum (map line_breaks l)
     + Nat.pred (List.length l) * line_breaks sep)%nat.
Proof.
  induction l as [|x l IH]; [reflexivity|].
  destruct l as [|y l].
  - simpl. lia.
  - change (String.concat sep (x :: y :: l))
      with (x ++ sep ++ String.concat sep (y :: l)).
    rewrite !line_breaks_app, IH. cbn [map List.length Nat.pred]. rewrite ?list_sum_cons.
    lia.
Qed.

Lemma line_breaks_uint (d : Decimal.uint) :
  line_breaks (NilEmpty.string_of_uint d) = 0%nat.
Proof. induction d; simpl; auto. Qed.

Lemma line_breaks_headers {A : Type} (row : list A) (i : nat) :
  list_sum (map line_breaks (headers_from i row)) = 0%nat.
Proof.
  revert i. induction row as [|x row IH]; intros i; [reflexivity|].
  cbn [headers_from map]. rewrite list_sum_cons. rewrite IH, line_breaks_app.
  unfold decimal. now rewrite line_breaks_uint.
Qed.

Lemma line_breaks_table_line (cells : list string) :
  line_breaks (table_line cells) = list_sum (map line_breaks cells).
Proof.
  unfold table_line. rewrite !line_breaks_app, line_breaks_concat.
  change (line_breaks " | ") with 0%nat. change (line_breaks "| ") with 0%nat.
  change (line_breaks " |") with 0%nat. lia.
Qed.

Lemma line_breaks_dashes (headers : list string) :
  list_sum (map line_breaks (map (fun _ : string => "---") headers)) = 0%nat.
Proof. induction headers as [|h headers IH]; simpl; [reflexivity | exact IH]. Qed.

(** X21.  Without rows [formatValuesAsMarkdown] returns the no-data
    message.  With rows, when neither the range nor the text of any cell
    contains a line break, the text it returns has three line breaks more
    than there are rows: a title, an empty line, a header, a separator and
    one line for each row. *)
Theorem formatValuesAsMarkdown_lines {number : Type}
  (numberToString : number -> string)
  (values : list (list (Cell number))) (range : string) :
  values <> [] ->
  line_breaks range = 0%nat ->
  Forall (Forall (fun cell => line_breaks (cellText numberToString cell) = 0%nat))
    values ->
  line_breaks (formatValuesAsMarkdown numberToString (Some values) range)
    = (3 + List.length values)%nat /\
  formatValuesAsMarkdown numberToString None range
    = "No data found in range: " ++ range /\
  formatValuesAsMarkdown numberToString (Some []) range
    = "No data found in range: " ++ range.
Proof.
  intros Hne Hrange Hcells. split; [|split; reflexivity].
  destruct values as [|first rest]; [congruence|].
  unfold formatValuesAsMarkdown, markdown_lines.
  rewrite line_breaks_concat.
  change (line_breaks newline) with 1%nat.
  cbn [map List.length Nat.pred]. rewrite ?list_sum_cons.
  rewrite !line_breaks_table_line, line_breaks_app, Hrange.
  rewrite line_breaks_headers, line_breaks_dashes.
  change (line_breaks "## Data from ") with 0%nat.
  change (line_breaks EmptyString) with 0%nat.
  rewrite length_map.
  assert (Hrows : forall rowsList : list (list (Cell number)),
    Forall (Forall (fun cell =>
      line_breaks (cellText numberToString cell) = 0%nat)) rowsList ->
    list_sum
      (map line_breaks
         (map (fun row => table_line (map (cellText numberToString) row))
            rowsList)) = 0%nat).
  { induction 1 as [|row rowsList Hrow _ IH]; [reflexivity|].
    cbn [map]. rewrite list_sum_cons. rewrite IH, line_breaks_table_line.
    clear -Hrow. induction Hrow as [|c cs Hc _ IHc]; [reflexivity|].
    cbn [map]. rewrite list_sum_cons, Hc. lia. }
  inversion Hcells as [|? ? Hfirst Hrest]; subst.
  rewrite (Hrows rest Hrest).
  assert (Hf : list_sum (map line_breaks (map (cellText numberToString) first))
               = 0%nat).
  { clear -Hfirst. induction Hfirst as [|c cs Hc _ IHc]; [reflexivity|].
    cbn [map]. rewrite list_sum_cons, Hc. lia. }
  rewrite Hf. lia.
Qed.

Lemma formatValuesAsMarkdown_lines_witness :
  line_breaks
    (formatValuesAsMarkdown no_number_string
       (Some [[CellString "a"; CellNull]; [CellBoolean true]]) "A1:B2")
  = 5%nat.
Proof.
  apply (formatValuesAsMarkdown_lines no_number_string
           [[CellString "a"; CellNull]; [CellBoolean true]] "A1:B2").
  - discriminate.
  - reflexivity.
  - repeat constructor.
Defined.

(** ** Resolution without a sheet name, and what a success implies *)

(** X22.  For a range without sheet name the resolution of the source sheet
    fails only when the metadata query fails, with the error of the query;
    and the identifier it returns is that of the first sheet of the
    metadata, or 0. *)
Theorem sourceSheetId_unnamed {number : Type}
  (client : SheetsClient number) (params : CreatePivotTableInput number)
  (parsedRange : RangeSpec) (log : list (Call number)) :
  sheetName parsedRange = EmptyString ->
  (forall e,
     fst (sourceSheetId client params parsedRange log) = Thrown e ->
     answer_get client log (spreadsheet_id params) metadata_fields = Thrown e) /\
  (forall id,
     fst (sourceSheetId client params parsedRange log) = Returned id ->
     id = 0 \/
     exists data sheet others,
       answer_get client log (spreadsheet_id params) metadata_fields
         = Returned data /\
       sheets_or_empty data = sheet :: others /\
       sheetId_of (Some sheet) = Some id).
Proof.
  intros Hname.
  unfold sourceSheetId, bind, spreadsheets_get, ret, metadata_fields.
  rewrite Hname. cbn [Js.truthy].
  destruct (answer_get client log (spreadsheet_id params) _) as [data|e'];
    cbn [fst]; split; intros x H; try discriminate H.
  - injection H as <-.
    destruct (sheets_or_empty data) as [|sheet others] eqn:Hs;
      cbn [nth_error]; [left; reflexivity|].
    destruct (sheetId_of (Some sheet)) as [id|] eqn:Hid; [|left; reflexivity].
    right. now exists data, sheet, others.
  - now injection H as ->.
Qed.

Lemma sourceSheetId_unnamed_witness :
  0 = 0 \/
  exists data sheet others,
    answer_get sales_client [] "s1" metadata_fields = Returned data /\
    sheets_or_empty data = sheet :: others /\
    sheetId_of (Some sheet) = Some 0.
Proof.
  apply (proj2 (sourceSheetId_unnamed sales_client (sales_spec "s1" None)
                  unnamed_range [] eq_refl) 0).
  reflexivity.
Defined.

(** X23.  When the handler returns its output, the source range of the
    parameters has been parsed, every row group and column group has no
    group rule or a group rule with a key, and the log ends with the
    [updateCells] into the sheet the output reports. *)
Theorem createPivotTable_success {number : Type}
  (numberToString : number -> string)
  (getSheetsClient : Outcome (SheetsClient number))
  (params : CreatePivotTableInput number) (log : list (Call number))
  (output : Output) :
  fst (createPivotTable numberToString getSheetsClient params log)
    = Returned output ->
  (exists parsedRange,
     parseA1Range (source_range params) = Returned parsedRange) /\
  Forall (fun group => group_compiles group = true)
    (list_or_empty (rows params)) /\
  Forall (fun group => group_compiles group = true)
    (list_or_empty (columns params)) /\
  exists before pivotTable,
    snd (createPivotTable numberToString getSheetsClient params log)
    = (before
       ++ [BatchUpdate (spreadsheet_id params)
             [updateCellsRequest pivotTable (pivotTableSheetId output)]])%list.
Proof.
  rewrite createPivotTable_stages.
  destruct getSheetsClient as [client|e]; [|discriminate].
  destruct (parseA1Range (source_range params)) as [r|e]; [|discriminate].
  destruct (sourceSheetId client params r log) as [[sid|e] log1];
    [|discriminate].
  destruct (destinationSheet client params log1) as [[dest|e] log2];
    [|discriminate].
  destruct (buildPivotTable numberToString params sid r) as [pt|e] eqn:Hb;
    [|discriminate].
  cbv zeta.
  destruct (answer_batchUpdate client log2 _ _) as [resp|e]; [|discriminate].
  cbn [fst snd]. intros H. injection H as <-. cbn [pivotTableSheetId].
  apply buildPivotTable_returned in Hb as (pr & pc & Hr & Hc & _).
  assert (Hall : forall (l : list (PivotGroupInput number)) ys,
    omap buildPivotGroup l = Returned ys ->
    Forall (fun group => group_compiles group = true) l).
  { intros l ys Hl.
    assert (Hex : exists ys, omap buildPivotGroup l = Returned ys)
      by (now exists ys).
    apply omap_returns_iff in Hex.
    eapply Forall_impl; [|exact Hex].
    intros g Hg. now apply buildPivotGroup_returns_iff. }
  split; [now exists r|].
  split; [now apply (Hall _ pr)|].
  split; [now apply (Hall _ pc)|].
  now exists log2, pt.
Qed.

Lemma createPivotTable_success_witness :
  exists parsedRange,
    parseA1Range (source_range (sales_spec (number := no_number) "s1" None))
      = Returned parsedRange.
Proof.
  exact (proj1 (createPivotTable_success no_number_string
                  (Returned sales_client) (sales_spec "s1" None) [] _
                  eq_refl)).
Defined.

(** ** The references of a range, in the words of the specification *)

Lemma split_once_none (sep : ascii) (s : string) :
  split_once sep s = None -> Js.includes s sep = false.
Proof.
  induction s as [|c s IH]; simpl; [reflexivity|].
  destruct (Ascii.eqb c sep); [discriminate|].
  destruct (split_once sep s) as [[before after]|]; [discriminate|].
  intros _. now apply IH.
Qed.

Lemma split_once_some (sep : ascii) (s before after : string) :
  split_once sep s = Some (before, after) ->
  s = before ++ String sep after /\ Js.includes before sep = false.
Proof.
  revert before. induction s as [|c s IH]; simpl; intros before H;
    [discriminate|].
  destruct (Ascii.eqb c sep) eqn:Hc.
  - injection H as <- <-. apply Ascii.eqb_eq in Hc. subst c. now split.
  - destruct (split_once sep s) as [[b a]|]; [|discriminate].
    injection H as <- <-. destruct (IH b eq_refl) as [-> Hb].
    cbn [append Js.includes]. now rewrite Hc, Hb.
Qed.

(** The cell-range portion of the code is that of the specification when
    the exclamation mark occurs at most once. *)
Lemma rangeOnlyOf_spec (range : string) :
  at_most_once "!" range = true ->
  rangeOnlyOf range = spec_rangePortion range.
Proof.
  unfold at_most_once, rangeOnlyOf, spec_rangePortion.
  destruct (split_once "!" range) as [[name portion]|] eqn:Hsplit.
  - intros Hone. apply negb_true_iff in Hone.
    apply split_once_some in Hsplit as [-> Hname].
    now rewrite (splitSheet_named name portion Hname Hone).
  - intros _. apply split_once_none in Hsplit.
    now rewrite (splitSheet_no_bang range Hsplit).
Qed.

(** The references of the code are those of the specification, an empty
    end reference apart, when the colon occurs at most once. *)
Lemma refs_spec (range : string) :
  at_most_once "!" range = true ->
  at_most_once ":" (spec_rangePortion range) = true ->
  startRefOf (rangeOnlyOf range) = spec_startRef range /\
  endRefOf (rangeOnlyOf range) = spec_endRef_or_start range.
Proof.
  intros Hbang Hcolon. rewrite (rangeOnlyOf_spec range Hbang).
  unfold spec_endRef_or_start, spec_startRef, spec_endRef.
  unfold at_most_once in Hcolon.
  set (portion := spec_rangePortion range) in *.
  unfold startRefOf, endRefOf, startRefOf.
  destruct (split_once ":" portion) as [[startRef endRef]|] eqn:Hsplit.
  - apply negb_true_iff in Hcolon.
    apply split_once_some in Hsplit as [-> Hstart].
    rewrite (split_at_first _ _ _ Hstart), (split_absent _ _ Hcolon).
    now cbn [nth nth_error].
  - apply split_once_none in Hsplit.
    rewrite (split_absent _ _ Hsplit). cbn [nth nth_error].
    split; [reflexivity | now destruct (Js.truthy portion)].
Qed.

(** C7, amended.  Take a range string in which the exclamation mark occurs
    at most once and, in the cell-range portion, the colon at most once;
    its start reference is the text before the colon, and its end
    reference the text after the colon, or the start reference when there
    is no colon or nothing after it.  When one of the two does not follow
    the grammar of a cell reference (letters, then digits), [parseA1Range]
    throws the invalid-format error for the range string; 1A:E and A:1E
    are such strings. *)
Theorem parse_rejects_bad_reference (range : string) :
  at_most_once "!" range = true ->
  at_most_once ":" (spec_rangePortion range) = true ->
  ~ ref_pattern (spec_startRef range) \/
  ~ ref_pattern (spec_endRef_or_start range) ->
  parseA1Range range = Thrown (InvalidFormat range) /\
  parseA1Range "1A:E" = Thrown (InvalidFormat "1A:E") /\
  parseA1Range "A:1E" = Thrown (InvalidFormat "A:1E").
Proof.
  intros Hbang Hcolon Hbad. split; [|split; reflexivity].
  destruct (refs_spec range Hbang Hcolon) as [Hstart Hend].
  apply parseA1Range_unmatched. now rewrite Hstart, Hend.
Qed.

Lemma parse_rejects_bad_reference_witness :
  parseA1Range "Data!A1:1E" = Thrown (InvalidFormat "Data!A1:1E") /\
  parseA1Range "Data!1A:E" = Thrown (InvalidFormat "Data!1A:E") /\
  parseA1Range "A1:B2!" = Thrown (InvalidFormat "A1:B2!").
Proof.
  split; [|split].
  - refine (proj1 (parse_rejects_bad_reference "Data!A1:1E" eq_refl eq_refl _)).
    right. intros Hp. apply match_ref_iff in Hp as [groups Hg].
    vm_compute in Hg. discriminate Hg.
  - refine (proj1 (parse_rejects_bad_reference "Data!1A:E" eq_refl eq_refl _)).
    left. intros Hp. apply match_ref_iff in Hp as [groups Hg].
    vm_compute in Hg. discriminate Hg.
  - refine (proj1 (parse_rejects_bad_reference "A1:B2!" eq_refl eq_refl _)).
    left. intros Hp. apply match_ref_iff in Hp as [groups Hg].
    vm_compute in Hg. discriminate Hg.
Defined.
